(** * go-pidpool: the PID controller of [pid.go]

    A shallow embedding of package [pidpool] and the proofs of its
    specification.  A Go [float64] is a primitive binary64 float of the
    kernel ([PrimFloat.float], IEEE 754, round to nearest even, one NaN);
    every arithmetic operation of the source is one rounded operation here,
    in the source's order (no multiply and add is fused).  The controller is a record, every method a
    function from the old record to the new one and the returned value.
    The mutex [mu] serialises the methods; the embedding is the sequential
    behaviour of one method call at a time, so [mu] has no field. *)

From Stdlib Require Import ZArith Bool List String Lia.
From Stdlib Require Import Uint63 Floats.
Import ListNotations.

#[local] Open Scope float_scope.
#[local] Set Warnings "-inexact-float".

(** ** Wall-clock time, as far as [Update] reads it *)

Module GoTime.

(** A [time.Time] is the clock reading in nanoseconds. *)
Definition Time : Type := Z.

(** A [time.Duration] is an [int64] count of nanoseconds. *)
Definition Duration : Type := Z.

Definition minDuration : Duration := (- 2 ^ 63)%Z.
Definition maxDuration : Duration := (2 ^ 63 - 1)%Z.
Definition Second : Duration := 1000000000%Z.

(** [t.Sub(u)]: the difference, saturated to the range of [Duration]. *)
Definition Sub (t u : Time) : Duration :=
  let d := (t - u)%Z in
  if (d <? minDuration)%Z then minDuration
  else if (maxDuration <? d)%Z then maxDuration
  else d.

(** [float64(n)] for an [int64] [n]. *)
Definition float64_of_int64 (n : Z) : float :=
  if (n <? 0)%Z then - (of_uint63 (Uint63.of_Z (- n)))
  else of_uint63 (Uint63.of_Z n).

(** [d.Seconds()]: whole seconds and the remainder, both truncated
    towards zero as Go's [/] and [%] on integers are. *)
Definition Seconds (d : Duration) : float :=
  let sec := Z.quot d Second in
  let nsec := Z.rem d Second in
  float64_of_int64 sec + float64_of_int64 nsec / 1e9.

End GoTime.

(** ** The controller *)

Record PID : Type := mkPID {
  kp : float;
  ki : float;
  kd : float;

  outputMin : float;
  outputMax : float;
  integralMin : float;
  integralMax : float;

  setPoint : float;
  prevValue : float;
  integral : float;
  prevError : float;
  lastUpdate : GoTime.Time;
  deadBand : float
}.

(** [NewPID]: the fields the composite literal leaves out are Go's zero
    values.  [now] is what [time.Now()] returns at the call. *)
Definition NewPID (now : GoTime.Time) (kp ki kd deadBand : float) : PID :=
  {| kp := kp;
     ki := ki;
     kd := kd;
     deadBand := deadBand;
     outputMin := neg_infinity;
     outputMax := infinity;
     integralMin := -100;
     integralMax := 100;
     lastUpdate := now;
     setPoint := 0;
     prevValue := 0;
     integral := 0;
     prevError := 0 |}.

(** The three-line pattern
    [if x > hi { x = hi } else if x < lo { x = lo }]
    of [SetIntegralLimits] and [updateInternal]. *)
Definition clamp (lo hi x : float) : float :=
  if hi <? x then hi else if x <? lo then lo else x.

Definition with_outputLimits (pid : PID) (lo hi : float) : PID :=
  {| kp := kp pid; ki := ki pid; kd := kd pid;
     outputMin := lo; outputMax := hi;
     integralMin := integralMin pid; integralMax := integralMax pid;
     setPoint := setPoint pid; prevValue := prevValue pid;
     integral := integral pid; prevError := prevError pid;
     lastUpdate := lastUpdate pid; deadBand := deadBand pid |}.

Definition with_integralLimits (pid : PID) (lo hi : float) : PID :=
  {| kp := kp pid; ki := ki pid; kd := kd pid;
     outputMin := outputMin pid; outputMax := outputMax pid;
     integralMin := lo; integralMax := hi;
     setPoint := setPoint pid; prevValue := prevValue pid;
     integral := integral pid; prevError := prevError pid;
     lastUpdate := lastUpdate pid; deadBand := deadBand pid |}.

Definition with_integral (pid : PID) (i : float) : PID :=
  {| kp := kp pid; ki := ki pid; kd := kd pid;
     outputMin := outputMin pid; outputMax := outputMax pid;
     integralMin := integralMin pid; integralMax := integralMax pid;
     setPoint := setPoint pid; prevValue := prevValue pid;
     integral := i; prevError := prevError pid;
     lastUpdate := lastUpdate pid; deadBand := deadBand pid |}.

Definition with_setPoint (pid : PID) (v : float) : PID :=
  {| kp := kp pid; ki := ki pid; kd := kd pid;
     outputMin := outputMin pid; outputMax := outputMax pid;
     integralMin := integralMin pid; integralMax := integralMax pid;
     setPoint := v; prevValue := prevValue pid;
     integral := integral pid; prevError := prevError pid;
     lastUpdate := lastUpdate pid; deadBand := deadBand pid |}.

Definition with_gains (pid : PID) (p i d : float) : PID :=
  {| kp := p; ki := i; kd := d;
     outputMin := outputMin pid; outputMax := outputMax pid;
     integralMin := integralMin pid; integralMax := integralMax pid;
     setPoint := setPoint pid; prevValue := prevValue pid;
     integral := integral pid; prevError := prevError pid;
     lastUpdate := lastUpdate pid; deadBand := deadBand pid |}.

Definition with_lastUpdate (pid : PID) (t : GoTime.Time) : PID :=
  {| kp := kp pid; ki := ki pid; kd := kd pid;
     outputMin := outputMin pid; outputMax := outputMax pid;
     integralMin := integralMin pid; integralMax := integralMax pid;
     setPoint := setPoint pid; prevValue := prevValue pid;
     integral := integral pid; prevError := prevError pid;
     lastUpdate := t; deadBand := deadBand pid |}.

(** [SetOutputLimits]: [None] is Go's [nil] error. *)
Definition SetOutputLimits (pid : PID) (min max : float) : PID * option string :=
  if max <? min then (pid, Some "min output greater than max output"%string)
  else (with_outputLimits pid min max, None).

(** [SetIntegralLimits]: new limits, then the accumulator clamped to them. *)
Definition SetIntegralLimits (pid : PID) (min max : float) : PID * option string :=
  if max <? min then (pid, Some "min integral greater than max integral"%string)
  else
    let pid := with_integralLimits pid min max in
    (with_integral pid (clamp (integralMin pid) (integralMax pid) (integral pid)),
     None).

Definition SetSetPoint (pid : PID) (val : float) : PID := with_setPoint pid val.

Definition GetSetPoint (pid : PID) : float := setPoint pid.

Definition SetPID (pid : PID) (kp ki kd : float) : PID := with_gains pid kp ki kd.

Definition GetPID (pid : PID) : float * float * float := (kp pid, ki pid, kd pid).

(** *** The update step, term by term *)

(** [err]: the error after the dead-band test. *)
Definition step_err (pid : PID) (value : float) : float :=
  let err := setPoint pid - value in
  if abs err <? deadBand pid then 0 else err.

(** [pid.integral] after [+=] and the clamp. *)
Definition step_integral (pid : PID) (value dt : float) : float :=
  clamp (integralMin pid) (integralMax pid)
        (integral pid + step_err pid value * dt).

(** [derivative]: on the measurement, and only for a positive [dt]. *)
Definition step_derivative (pid : PID) (value dt : float) : float :=
  if 0 <? dt then - (value - prevValue pid) / dt else 0.

(** [output] before the clamp. *)
Definition step_raw (pid : PID) (value dt : float) : float :=
  kp pid * step_err pid value
  + ki pid * step_integral pid value dt
  + kd pid * step_derivative pid value dt.

Definition updateInternal (pid : PID) (value dt : float) : PID * float :=
  let err := step_err pid value in
  let integral' := step_integral pid value dt in
  let output := step_raw pid value dt in
  ({| kp := kp pid; ki := ki pid; kd := kd pid;
      outputMin := outputMin pid; outputMax := outputMax pid;
      integralMin := integralMin pid; integralMax := integralMax pid;
      setPoint := setPoint pid;
      prevValue := value;
      integral := integral';
      prevError := err;
      lastUpdate := lastUpdate pid;
      deadBand := deadBand pid |},
   clamp (outputMin pid) (outputMax pid) output).

(** [Update]: [dt] from the wall clock; [now] is what [time.Now()]
    returns at the call. *)
Definition Update (now : GoTime.Time) (pid : PID) (value : float) : PID * float :=
  let dt := GoTime.Seconds (GoTime.Sub now (lastUpdate pid)) in
  let pid := with_lastUpdate pid now in
  updateInternal pid value dt.

(** [UpdateDuration]: the caller's [dt]. *)
Definition UpdateDuration (pid : PID) (value dt : float) : PID * float :=
  updateInternal pid value dt.

(** ** The methods as calls

    One constructor per exported method, so that a history is a list.  A
    call is run against the clock reading [now]; only [Update] looks at
    it. *)

Inductive call : Type :=
| CallSetOutputLimits (min max : float)
| CallSetIntegralLimits (min max : float)
| CallSetSetPoint (val : float)
| CallGetSetPoint
| CallSetPID (kp ki kd : float)
| CallGetPID
| CallUpdate (value : float)
| CallUpdateDuration (value dt : float).

Inductive reply : Type :=
| RError (e : option string)
| RNone
| RFloat (x : float)
| RGains (kp ki kd : float).

Definition run (now : GoTime.Time) (pid : PID) (c : call) : PID * reply :=
  match c with
  | CallSetOutputLimits min max =>
      let (pid', e) := SetOutputLimits pid min max in (pid', RError e)
  | CallSetIntegralLimits min max =>
      let (pid', e) := SetIntegralLimits pid min max in (pid', RError e)
  | CallSetSetPoint val => (SetSetPoint pid val, RNone)
  | CallGetSetPoint => (pid, RFloat (GetSetPoint pid))
  | CallSetPID kp ki kd => (SetPID pid kp ki kd, RNone)
  | CallGetPID => let '(p, i, d) := GetPID pid in (pid, RGains p i d)
  | CallUpdate value =>
      let (pid', out) := Update now pid value in (pid', RFloat out)
  | CallUpdateDuration value dt =>
      let (pid', out) := UpdateDuration pid value dt in (pid', RFloat out)
  end.

(** The states a history of calls leads to from [pid0]. *)
Inductive reachable_from (pid0 : PID) : PID -> Prop :=
| reach_start : reachable_from pid0 pid0
| reach_call : forall pid now c,
    reachable_from pid0 pid ->
    reachable_from pid0 (fst (run now pid c)).

(** The states of a controller that [NewPID] made. *)
Definition reachable (pid : PID) : Prop :=
  exists now kp ki kd deadBand,
    reachable_from (NewPID now kp ki kd deadBand) pid.

(** What the comparisons of the two clamps and of the two range checks
    keep true in every reachable state. *)
Definition limits_ordered (pid : PID) : Prop :=
  (outputMax pid <? outputMin pid) = false /\
  (integralMax pid <? integralMin pid) = false.

Definition integral_clamped (pid : PID) : Prop :=
  (integralMax pid <? integral pid) = false /\
  (integral pid <? integralMin pid) = false.

(** Two floats with the same value: the same float, or two zeros (Go's
    [==] does not tell [-0] from [0]).  NaN has the same value as NaN. *)
Definition same_value (x y : float) : Prop :=
  x = y \/ (is_zero x = true /\ is_zero y = true).

(** A history of calls, each with the clock reading it ran at. *)
Definition run_all (pid : PID) (h : list (GoTime.Time * call)) : PID :=
  fold_left (fun pid nc => fst (run (fst nc) pid (snd nc))) h pid.

(** Fields two states agree on. *)
Definition same_config (a b : PID) : Prop :=
  kp a = kp b /\ ki a = ki b /\ kd a = kd b /\
  setPoint a = setPoint b /\ deadBand a = deadBand b /\
  lastUpdate a = lastUpdate b.

Definition same_outputLimits (a b : PID) : Prop :=
  outputMin a = outputMin b /\ outputMax a = outputMax b.

Definition same_integralLimits (a b : PID) : Prop :=
  integralMin a = integralMin b /\ integralMax a = integralMax b.

(** *** Concrete controllers *)

(** The controller of [TestNewPID_ProportionalControl_OutputLimit] before
    its update: gains (1, 0, 0), limits [2, 10], set point 100. *)
Definition test_pid : PID :=
  run_all (NewPID 0%Z 1 0 0 0)
    [(0%Z, CallSetOutputLimits 2 10); (0%Z, CallSetSetPoint 100)].

(** The same controller with a large finite set point: measuring [-1e308]
    makes the error overflow to [+Inf]. *)
Definition far_pid : PID :=
  run_all (NewPID 0%Z 1 0 0 0)
    [(0%Z, CallSetOutputLimits 2 10); (0%Z, CallSetSetPoint 1e308)].

(** [far_pid] after [UpdateDuration(-1e308, 0)]. *)
Definition far_pid_updated : PID :=
  run_all (NewPID 0%Z 1 0 0 0)
    [(0%Z, CallSetOutputLimits 2 10); (0%Z, CallSetSetPoint 1e308);
     (0%Z, CallUpdateDuration (-1e308) 0)].

(** A controller that has accumulated: gains (1, 1, 0), set point 1000,
    one update of 0 over 1 s takes the accumulator to its limit 100. *)
Definition wound_pid : PID :=
  run_all (NewPID 0%Z 1 1 0 0)
    [(0%Z, CallSetSetPoint 1000); (0%Z, CallUpdateDuration 0 1)].

(** A controller with dead-band 1 and gains (1, 1, 0), as [NewPID]
    leaves it: set point 0, accumulator 0. *)
Definition dead_pid : PID := NewPID 0%Z 1 1 0 1.

(** A controller with dead-band 1 whose accumulator is [-0]: it went to
    -10, then [SetIntegralLimits(-0, 5)] clamped it to the new minimum. *)
Definition negzero_pid : PID :=
  run_all (NewPID 0%Z 1 1 0 1)
    [(0%Z, CallSetSetPoint (-10)); (0%Z, CallUpdateDuration 0 1);
     (0%Z, CallSetSetPoint 0); (0%Z, CallSetIntegralLimits (-0) 5)].

(** A controller with dead-band 5 and set point 5. *)
Definition band5_pid : PID :=
  run_all (NewPID 0%Z 1 0 0 5) [(0%Z, CallSetSetPoint 5)].

(** A controller with the negative dead-band -1 and set point 0.5. *)
Definition negband_pid : PID :=
  run_all (NewPID 0%Z 1 0 0 (-1)) [(0%Z, CallSetSetPoint 0.5)].

(** ** Histories, read back *)

(** The gains the last [SetPID] of a history set; [g] when it has none. *)
Definition last_gains (g : float * float * float)
    (h : list (GoTime.Time * call)) : float * float * float :=
  fold_left
    (fun g nc => match snd nc with CallSetPID p i d => (p, i, d) | _ => g end)
    h g.

(** The value the last [SetSetPoint] of a history set; [v] when it has
    none. *)
Definition last_setPoint (v : float) (h : list (GoTime.Time * call)) : float :=
  fold_left
    (fun v nc => match snd nc with CallSetSetPoint x => x | _ => v end)
    h v.

(** The clock reading of the last [Update] of a history; [t] when it has
    none. *)
Definition last_Update (t : GoTime.Time) (h : list (GoTime.Time * call))
    : GoTime.Time :=
  fold_left
    (fun t nc => match snd nc with CallUpdate _ => fst nc | _ => t end)
    h t.

Definition is_SetOutputLimits (c : call) : bool :=
  match c with CallSetOutputLimits _ _ => true | _ => false end.

Definition is_update (c : call) : bool :=
  match c with CallUpdate _ | CallUpdateDuration _ _ => true | _ => false end.

(** What the calls of a history return, in order. *)
Fixpoint replies (pid : PID) (h : list (GoTime.Time * call)) : list reply :=
  match h with
  | [] => []
  | nc :: h =>
      let (pid', r) := run (fst nc) pid (snd nc) in r :: replies pid' h
  end.

Definition with_prevError (pid : PID) (e : float) : PID :=
  {| kp := kp pid; ki := ki pid; kd := kd pid;
     outputMin := outputMin pid; outputMax := outputMax pid;
     integralMin := integralMin pid; integralMax := integralMax pid;
     setPoint := setPoint pid; prevValue := prevValue pid;
     integral := integral pid; prevError := e;
     lastUpdate := lastUpdate pid; deadBand := deadBand pid |}.

(** ** The clock as the environment of a call

    What a method can read besides its receiver and its arguments is the
    wall clock, through [time.Now()].  A clock is the sequence of readings
    the successive calls of [time.Now()] return, with the number of
    readings taken so far; a method is a function from the clock before the
    call to its result and the clock after. *)

Record Clock : Type := mkClock {
  readings : nat -> GoTime.Time;
  taken : nat
}.

Definition Go (A : Type) : Type := Clock -> A * Clock.

Definition ret {A : Type} (x : A) : Go A := fun c => (x, c).

Definition bind {A B : Type} (m : Go A) (k : A -> Go B) : Go B :=
  fun c => let (x, c') := m c in k x c'.

(** [time.Now()]: the next reading. *)
Definition time_Now : Go GoTime.Time :=
  fun c => (readings c (taken c),
            {| readings := readings c; taken := S (taken c) |}).

(** [NewPID] and [Update] read the clock once; [UpdateDuration] has no
    [time.Now()] in its body nor in [updateInternal]. *)
Definition NewPID_at_clock (kp ki kd deadBand : float) : Go PID :=
  bind time_Now (fun now => ret (NewPID now kp ki kd deadBand)).

Definition Update_at_clock (pid : PID) (value : float) : Go (PID * float) :=
  bind time_Now (fun now => ret (Update now pid value)).

Definition UpdateDuration_at_clock (pid : PID) (value dt : float)
    : Go (PID * float) :=
  ret (UpdateDuration pid value dt).

(** Two states with the same gains, limits, set point, dead-band,
    [prevValue] and [integral]: they may differ in the stored time
    [lastUpdate] and in [prevError]. *)
Definition same_step_inputs (a b : PID) : Prop :=
  kp a = kp b /\ ki a = ki b /\ kd a = kd b /\
  outputMin a = outputMin b /\ outputMax a = outputMax b /\
  integralMin a = integralMin b /\ integralMax a = integralMax b /\
  setPoint a = setPoint b /\ deadBand a = deadBand b /\
  prevValue a = prevValue b /\ integral a = integral b.

(** Two clocks that have nothing in common. *)
Definition clock_a : Clock :=
  {| readings := fun _ => 1000000000%Z; taken := 0 |}.

Definition clock_b : Clock :=
  {| readings := fun n => (2000000000 * Z.of_nat n)%Z; taken := 1 |}.

(** ** Order facts on binary64 floats *)

Section FloatOrder.

Lemma compare_cont_flip (m1 m2 : positive) :
  Pos.compare_cont Eq m2 m1 = CompOpp (Pos.compare_cont Eq m1 m2).
Proof. rewrite Pos.compare_cont_antisym. reflexivity. Qed.

Lemma SFcompare_antisym (x y : spec_float) :
  SFcompare y x = option_map CompOpp (SFcompare x y).
Proof.
  destruct x as [[]|[]| |[] m1 e1], y as [[]|[]| |[] m2 e2];
    simpl; try reflexivity.
  all: rewrite (Z.compare_antisym e1 e2), (compare_cont_flip m1 m2);
    destruct (e1 ?= e2)%Z; simpl; try reflexivity;
    destruct (Pos.compare_cont Eq m1 m2); reflexivity.
Qed.

Lemma SFcompare_refl (x : spec_float) :
  x <> S754_nan -> SFcompare x x = Some Eq.
Proof.
  destruct x as [[]|[]| |[] m e]; simpl; intros H;
    try reflexivity; try congruence.
  all: rewrite Z.compare_refl, Pos.compare_cont_refl; reflexivity.
Qed.

Lemma SFcompare_nan_r (x : spec_float) : SFcompare x S754_nan = None.
Proof. destruct x; reflexivity. Qed.

Lemma is_nan_true (x : float) : is_nan x = true <-> Prim2SF x = S754_nan.
Proof.
  unfold is_nan. rewrite FloatAxioms.eqb_spec. unfold SFeqb.
  destruct (Prim2SF x) as [[]|[]| |[] m e]; simpl;
    split; try congruence; try reflexivity.
  all: rewrite Z.compare_refl, Pos.compare_cont_refl; simpl; congruence.
Qed.

Lemma is_nan_false (x : float) : is_nan x = false <-> Prim2SF x <> S754_nan.
Proof.
  rewrite <- is_nan_true. destruct (is_nan x); split; congruence.
Qed.

Lemma ltb_irrefl (x : float) : (x <? x) = false.
Proof.
  rewrite FloatAxioms.ltb_spec. unfold SFltb.
  destruct (Prim2SF x) as [[]|[]| |[] m e] eqn:E; try reflexivity.
  all: rewrite SFcompare_refl by discriminate; reflexivity.
Qed.

Lemma not_ltb_leb (x y : float) :
  is_nan x = false -> is_nan y = false ->
  (y <? x) = false -> (x <=? y) = true.
Proof.
  rewrite !is_nan_false, FloatAxioms.ltb_spec, FloatAxioms.leb_spec.
  unfold SFltb, SFleb. rewrite (SFcompare_antisym (Prim2SF x) (Prim2SF y)).
  intros Hx Hy.
  destruct (Prim2SF x) as [[]|[]| |[] m1 e1], (Prim2SF y) as [[]|[]| |[] m2 e2];
    try congruence; simpl; try congruence.
  all: destruct (e1 ?= e2)%Z; simpl; try congruence;
    destruct (Pos.compare_cont Eq m1 m2); simpl; congruence.
Qed.

Lemma leb_not_ltb (x y : float) : (x <=? y) = true -> (y <? x) = false.
Proof.
  rewrite FloatAxioms.ltb_spec, FloatAxioms.leb_spec.
  unfold SFltb, SFleb. rewrite (SFcompare_antisym (Prim2SF x) (Prim2SF y)).
  destruct (SFcompare (Prim2SF x) (Prim2SF y)) as [[]|]; simpl; congruence.
Qed.



Lemma eqb_not_ltb (x y : float) : (x =? y) = true -> (x <? y) = false.
Proof.
  rewrite FloatAxioms.eqb_spec, FloatAxioms.ltb_spec. unfold SFeqb, SFltb.
  destruct (SFcompare (Prim2SF x) (Prim2SF y)) as [[]|]; congruence.
Qed.


Lemma ltb_nan_l (x y : float) : is_nan x = true -> (x <? y) = false.
Proof.
  rewrite is_nan_true, FloatAxioms.ltb_spec. intros ->. reflexivity.
Qed.

Lemma ltb_nan_r (x y : float) : is_nan y = true -> (x <? y) = false.
Proof.
  rewrite is_nan_true, FloatAxioms.ltb_spec. intros ->.
  unfold SFltb. rewrite SFcompare_nan_r. reflexivity.
Qed.

End FloatOrder.

(** ** Zeros, finite floats and floats of the same value *)

Section FloatValues.

Lemma Prim2SF_zero : Prim2SF 0 = S754_zero false.
Proof. reflexivity. Qed.

Lemma Prim2SF_infinity : Prim2SF infinity = S754_infinity false.
Proof. reflexivity. Qed.

Lemma is_zero_true (x : float) :
  is_zero x = true <-> exists s, Prim2SF x = S754_zero s.
Proof.
  unfold is_zero. rewrite FloatAxioms.eqb_spec.
  change (Prim2SF zero) with (S754_zero false).
  destruct (Prim2SF x) as [s|[]| |[] m e]; simpl; split;
    try discriminate; try (intros [s' H]; discriminate H).
  - intros _. exists s. reflexivity.
  - reflexivity.
Qed.

Lemma is_finite_true (x : float) :
  is_finite x = true ->
  (exists s, Prim2SF x = S754_zero s) \/
  (exists s m e, Prim2SF x = S754_finite s m e).
Proof.
  unfold is_finite, is_infinity.
  rewrite negb_true_iff, orb_false_iff, is_nan_false.
  rewrite FloatAxioms.eqb_spec, abs_spec, Prim2SF_infinity.
  intros [Hn Hi].
  destruct (Prim2SF x) as [s|s| |s m e]; simpl in Hi.
  - left. exists s. reflexivity.
  - discriminate Hi.
  - congruence.
  - right. exists s, m, e. reflexivity.
Qed.

Lemma mul_zero_l (x : float) : is_finite x = true -> is_zero (0 * x) = true.
Proof.
  intros H. apply is_zero_true. rewrite mul_spec, Prim2SF_zero.
  destruct (is_finite_true x H) as [[s ->] | (s & m & e & ->)];
    simpl; eexists; reflexivity.
Qed.

Lemma mul_zero_r (x : float) : is_finite x = true -> is_zero (x * 0) = true.
Proof.
  intros H. apply is_zero_true. rewrite mul_spec, Prim2SF_zero.
  destruct (is_finite_true x H) as [[s ->] | (s & m & e & ->)];
    simpl; eexists; reflexivity.
Qed.

Lemma same_value_refl (x : float) : same_value x x.
Proof. left. reflexivity. Qed.



Lemma same_value_trans (x y z : float) :
  same_value x y -> same_value y z -> same_value x z.
Proof.
  intros [-> | [A B]] [<- | [C D]]; try (left; reflexivity);
    right; auto.
Qed.

(** Adding a zero keeps the value. *)
Lemma add_zero_r (x z : float) : is_zero z = true -> same_value (x + z) x.
Proof.
  intros Hz. apply is_zero_true in Hz. destruct Hz as [sz Hz].
  destruct (Prim2SF x) as [s|s| |s m e] eqn:Ex.
  - right. split; apply is_zero_true; [|eauto].
    rewrite add_spec, Ex, Hz. destruct s, sz; simpl; eauto.
  - left. apply Prim2SF_inj. rewrite add_spec, Ex, Hz. reflexivity.
  - left. apply Prim2SF_inj. rewrite add_spec, Ex, Hz. reflexivity.
  - left. apply Prim2SF_inj. rewrite add_spec, Ex, Hz. reflexivity.
Qed.

Lemma add_zero_l (x z : float) : is_zero z = true -> same_value (z + x) x.
Proof.
  intros Hz. apply is_zero_true in Hz. destruct Hz as [sz Hz].
  destruct (Prim2SF x) as [s|s| |s m e] eqn:Ex.
  - right. split; apply is_zero_true; [|eauto].
    rewrite add_spec, Ex, Hz. destruct s, sz; simpl; eauto.
  - left. apply Prim2SF_inj. rewrite add_spec, Ex, Hz. reflexivity.
  - left. apply Prim2SF_inj. rewrite add_spec, Ex, Hz. reflexivity.
  - left. apply Prim2SF_inj. rewrite add_spec, Ex, Hz. reflexivity.
Qed.

(** The operations of the step do not tell two floats of the same value
    apart, up to the value of the result. *)
Lemma ltb_same_value_l (x y a : float) :
  same_value x y -> (x <? a) = (y <? a).
Proof.
  intros [-> | [A B]]; [reflexivity|].
  apply is_zero_true in A, B. destruct A as [sx A], B as [sy B].
  rewrite !FloatAxioms.ltb_spec, A, B. unfold SFltb.
  destruct (Prim2SF a); reflexivity.
Qed.

Lemma ltb_same_value_r (x y a : float) :
  same_value x y -> (a <? x) = (a <? y).
Proof.
  intros [-> | [A B]]; [reflexivity|].
  apply is_zero_true in A, B. destruct A as [sx A], B as [sy B].
  rewrite !FloatAxioms.ltb_spec, A, B. unfold SFltb.
  destruct (Prim2SF a); reflexivity.
Qed.

Lemma add_same_value_l (x y b : float) :
  same_value x y -> same_value (x + b) (y + b).
Proof.
  intros [-> | [A B]]; [left; reflexivity|].
  apply is_zero_true in A, B. destruct A as [sx A], B as [sy B].
  destruct (Prim2SF b) as [s|s| |s m e] eqn:Eb.
  - right. split; apply is_zero_true; rewrite add_spec, ?A, ?B, Eb;
      [destruct sx, s | destruct sy, s]; simpl; eauto.
  - left. apply Prim2SF_inj. rewrite !add_spec, A, B, Eb. reflexivity.
  - left. apply Prim2SF_inj. rewrite !add_spec, A, B, Eb. reflexivity.
  - left. apply Prim2SF_inj. rewrite !add_spec, A, B, Eb. reflexivity.
Qed.

Lemma mul_same_value_r (k x y : float) :
  same_value x y -> same_value (k * x) (k * y).
Proof.
  intros [-> | [A B]]; [left; reflexivity|].
  apply is_zero_true in A, B. destruct A as [sx A], B as [sy B].
  destruct (Prim2SF k) as [s|s| |s m e] eqn:Ek.
  - right. split; apply is_zero_true; rewrite mul_spec, ?A, ?B, Ek;
      simpl; eauto.
  - left. apply Prim2SF_inj. rewrite !mul_spec, A, B, Ek. reflexivity.
  - left. apply Prim2SF_inj. rewrite !mul_spec, A, B, Ek. reflexivity.
  - right. split; apply is_zero_true; rewrite mul_spec, ?A, ?B, Ek;
      simpl; eauto.
Qed.

(** The magnitude of a float is never below a negative float. *)
Lemma abs_not_ltb_negative (x d : float) :
  (d <? 0) = true -> (abs x <? d) = false.
Proof.
  rewrite !FloatAxioms.ltb_spec, abs_spec, Prim2SF_zero. unfold SFltb.
  destruct (Prim2SF d) as [s|[]| |[] m e], (Prim2SF x) as [s'|s'| |s' m' e'];
    simpl; congruence.
Qed.

End FloatValues.

(** ** The clamp *)

Section Clamp.

Variables lo hi : float.

Lemma clamp_id (x : float) :
  (hi <? x) = false -> (x <? lo) = false -> clamp lo hi x = x.
Proof. unfold clamp. intros -> ->. reflexivity. Qed.


Lemma clamp_same_value (x y : float) :
  same_value x y -> same_value (clamp lo hi x) (clamp lo hi y).
Proof.
  intros H. unfold clamp.
  rewrite (ltb_same_value_r x y hi H), (ltb_same_value_l x y lo H).
  destruct (hi <? y); [apply same_value_refl|].
  destruct (y <? lo); [apply same_value_refl | assumption].
Qed.

Lemma clamp_keeps_same_value (x y : float) :
  same_value x y -> (hi <? y) = false -> (y <? lo) = false ->
  same_value (clamp lo hi x) y.
Proof.
  intros H A B.
  assert (E := clamp_same_value x y H).
  rewrite (clamp_id y A B) in E. exact E.
Qed.

Hypothesis ordered : (hi <? lo) = false.

Lemma clamp_not_above (x : float) : (hi <? clamp lo hi x) = false.
Proof.
  unfold clamp. destruct (hi <? x) eqn:A.
  - apply ltb_irrefl.
  - destruct (x <? lo); assumption.
Qed.

Lemma clamp_not_below (x : float) : (clamp lo hi x <? lo) = false.
Proof.
  unfold clamp. destruct (hi <? x) eqn:A.
  - assumption.
  - destruct (x <? lo) eqn:B; [apply ltb_irrefl | assumption].
Qed.

Lemma clamp_is_nan (x : float) :
  is_nan lo = false -> is_nan hi = false ->
  is_nan (clamp lo hi x) = is_nan x.
Proof.
  intros Hlo Hhi. unfold clamp.
  destruct (hi <? x) eqn:A.
  - destruct (is_nan x) eqn:N; [|assumption].
    rewrite (ltb_nan_r hi x N) in A. discriminate.
  - destruct (x <? lo) eqn:B; [|reflexivity].
    destruct (is_nan x) eqn:N; [|assumption].
    rewrite (ltb_nan_l x lo N) in B. discriminate.
Qed.

End Clamp.

(** ** Invariants of the reachable states *)

Ltac unfold_methods :=
  unfold run, SetOutputLimits, SetIntegralLimits, SetSetPoint, SetPID,
    GetPID, GetSetPoint, Update, UpdateDuration, updateInternal in *.

Lemma NewPID_limits_ordered now p i d db :
  limits_ordered (NewPID now p i d db).
Proof. split; reflexivity. Qed.

Lemma NewPID_integral_clamped now p i d db :
  integral_clamped (NewPID now p i d db).
Proof. split; reflexivity. Qed.

Lemma run_limits_ordered now pid c :
  limits_ordered pid -> limits_ordered (fst (run now pid c)).
Proof.
  intros [Ho Hi]. destruct c; unfold_methods; simpl;
    try (split; assumption).
  - destruct (max <? min) eqn:E; simpl; split; assumption.
  - destruct (max <? min) eqn:E; simpl; split; assumption.
Qed.

Lemma run_integral_clamped now pid c :
  limits_ordered pid -> integral_clamped pid ->
  integral_clamped (fst (run now pid c)).
Proof.
  intros [Ho Hi] [Ha Hb]. destruct c; unfold_methods; simpl;
    try (split; assumption).
  - destruct (max <? min) eqn:E; simpl; split; assumption.
  - destruct (max <? min) eqn:E; simpl; [split; assumption|].
    split; [apply clamp_not_above | apply clamp_not_below]; assumption.
  - split; [apply clamp_not_above | apply clamp_not_below]; assumption.
  - split; [apply clamp_not_above | apply clamp_not_below]; assumption.
Qed.

Lemma reachable_from_invariants pid0 pid :
  limits_ordered pid0 -> integral_clamped pid0 ->
  reachable_from pid0 pid ->
  limits_ordered pid /\ integral_clamped pid.
Proof.
  intros H0 H1 R. induction R as [|pid now c R [IHo IHi]].
  - split; assumption.
  - split; [apply run_limits_ordered | apply run_integral_clamped];
      assumption.
Qed.

Lemma reachable_invariants pid :
  reachable pid -> limits_ordered pid /\ integral_clamped pid.
Proof.
  intros (now & p & i & d & db & R).
  eapply reachable_from_invariants; eauto
    using NewPID_limits_ordered, NewPID_integral_clamped.
Qed.

Lemma reachable_new now p i d db : reachable (NewPID now p i d db).
Proof. exists now, p, i, d, db. constructor. Qed.

Lemma reachable_run now pid c :
  reachable pid -> reachable (fst (run now pid c)).
Proof.
  intros (now0 & p & i & d & db & R).
  exists now0, p, i, d, db. constructor. assumption.
Qed.

Lemma run_deadBand now pid c : deadBand (fst (run now pid c)) = deadBand pid.
Proof.
  destruct c; unfold_methods; simpl; try reflexivity;
    destruct (max <? min); reflexivity.
Qed.

Lemma reachable_from_deadBand pid0 pid :
  reachable_from pid0 pid -> deadBand pid = deadBand pid0.
Proof.
  induction 1 as [|pid now c R IH]; [reflexivity|].
  rewrite run_deadBand. assumption.
Qed.

(** The output is the clamp of [step_raw]. *)
Lemma UpdateDuration_output pid value dt :
  snd (UpdateDuration pid value dt)
  = clamp (outputMin pid) (outputMax pid) (step_raw pid value dt).
Proof. reflexivity. Qed.

Lemma reachable_from_run_all pid0 h :
  reachable_from pid0 (run_all pid0 h).
Proof.
  unfold run_all. induction h as [|nc h IH] using rev_ind; simpl.
  - constructor.
  - rewrite fold_left_app. simpl. constructor. assumption.
Qed.

Lemma reachable_run_all now p i d db h :
  reachable (run_all (NewPID now p i d db) h).
Proof. exists now, p, i, d, db. apply reachable_from_run_all. Qed.

(** The output is NaN exactly when [step_raw] is, the limits being
    numbers. *)
Lemma UpdateDuration_output_is_nan pid value dt :
  limits_ordered pid ->
  is_nan (outputMin pid) = false -> is_nan (outputMax pid) = false ->
  is_nan (snd (UpdateDuration pid value dt))
  = is_nan (step_raw pid value dt).
Proof.
  intros [Ho _] Hlo Hhi. rewrite UpdateDuration_output.
  apply clamp_is_nan; assumption.
Qed.

(** ** The claims *)

(** C1 (as amended). In every reachable state, the output of [Update] and of
    [UpdateDuration] is never above [outputMax] and never below
    [outputMin] in Go's comparisons; so it lies between the two limits of
    the call whenever the output and the limits are numbers.  A NaN output
    is returned as it is. *)
Theorem update_output_within_limits :
  forall (pid : PID) (now : GoTime.Time) (c : call) (pid' : PID) (out : float),
    reachable pid ->
    (exists value, c = CallUpdate value) \/
    (exists value dt, c = CallUpdateDuration value dt) ->
    run now pid c = (pid', RFloat out) ->
    ((outputMax pid <? out) = false /\ (out <? outputMin pid) = false) /\
    (is_nan out = false ->
     is_nan (outputMin pid) = false -> is_nan (outputMax pid) = false ->
     (outputMin pid <=? out) = true /\ (out <=? outputMax pid) = true).
Proof.
  intros pid now c pid' out R Hc Hrun.
  destruct (reachable_invariants pid R) as [[Ho _] _].
  assert (Hout : exists raw, out = clamp (outputMin pid) (outputMax pid) raw).
  { destruct Hc as [[v ->] | (v & dt & ->)]; simpl in Hrun;
      injection Hrun as _ <-; eexists; reflexivity. }
  destruct Hout as [raw ->].
  assert (A := clamp_not_above _ _ Ho raw).
  assert (B := clamp_not_below _ _ Ho raw).
  split; [split; assumption|].
  intros Hn Hlo Hhi. split; apply not_ltb_leb; assumption.
Qed.

Lemma update_output_within_limits_witness :
  ((outputMax test_pid <? 10) = false /\ (10 <? outputMin test_pid) = false) /\
  (is_nan 10 = false ->
   is_nan (outputMin test_pid) = false -> is_nan (outputMax test_pid) = false ->
   (outputMin test_pid <=? 10) = true /\ (10 <=? outputMax test_pid) = true).
Proof.
  apply (update_output_within_limits test_pid 0%Z (CallUpdateDuration 0 0.1)
           (fst (UpdateDuration test_pid 0 0.1)) 10).
  - apply reachable_run_all.
  - right. exists 0, 0.1. reflexivity.
  - vm_compute. reflexivity.
Defined.

(** C1 (as stated) fails.  [far_pid] is reachable with finite arguments
    only; its limits are [2, 10]; [UpdateDuration(-1e308, 0)] computes the
    error [+Inf], the accumulator [Inf * 0 = NaN], and returns NaN, which
    is not between 2 and 10. *)
Lemma update_output_outside_limits :
  reachable far_pid /\
  outputMin far_pid = 2 /\ outputMax far_pid = 10 /\
  is_finite 1e308 = true /\ is_finite (-1e308) = true /\
  is_nan (snd (UpdateDuration far_pid (-1e308) 0)) = true /\
  (outputMin far_pid <=? snd (UpdateDuration far_pid (-1e308) 0)) = false /\
  (snd (UpdateDuration far_pid (-1e308) 0) <=? outputMax far_pid) = false.
Proof.
  split; [apply reachable_run_all|].
  repeat split; vm_compute; reflexivity.
Qed.

(** C2 (as amended). In every reachable state (so after every update and
    after every [SetIntegralLimits], also one that shrinks the range below
    the accumulated value) the accumulator is never above [integralMax] and
    never below [integralMin] in Go's comparisons; so it lies between the
    two limits whenever the accumulator and the limits are numbers.  A NaN
    accumulator stays as it is. *)
Theorem integral_within_limits :
  forall pid : PID,
    reachable pid ->
    ((integralMax pid <? integral pid) = false /\
     (integral pid <? integralMin pid) = false) /\
    (is_nan (integral pid) = false ->
     is_nan (integralMin pid) = false -> is_nan (integralMax pid) = false ->
     (integralMin pid <=? integral pid) = true /\
     (integral pid <=? integralMax pid) = true).
Proof.
  intros pid R.
  destruct (reachable_invariants pid R) as [_ [A B]].
  split; [split; assumption|].
  intros Hn Hlo Hhi. split; apply not_ltb_leb; assumption.
Qed.

Lemma integral_within_limits_witness :
  ((integralMax (fst (SetIntegralLimits wound_pid (-1) 1))
      <? integral (fst (SetIntegralLimits wound_pid (-1) 1))) = false /\
   (integral (fst (SetIntegralLimits wound_pid (-1) 1))
      <? integralMin (fst (SetIntegralLimits wound_pid (-1) 1))) = false) /\
  (is_nan (integral (fst (SetIntegralLimits wound_pid (-1) 1))) = false ->
   is_nan (integralMin (fst (SetIntegralLimits wound_pid (-1) 1))) = false ->
   is_nan (integralMax (fst (SetIntegralLimits wound_pid (-1) 1))) = false ->
   (integralMin (fst (SetIntegralLimits wound_pid (-1) 1))
      <=? integral (fst (SetIntegralLimits wound_pid (-1) 1))) = true /\
   (integral (fst (SetIntegralLimits wound_pid (-1) 1))
      <=? integralMax (fst (SetIntegralLimits wound_pid (-1) 1))) = true).
Proof.
  apply (integral_within_limits (fst (SetIntegralLimits wound_pid (-1) 1))).
  apply (reachable_run 0%Z wound_pid (CallSetIntegralLimits (-1) 1)).
  apply reachable_run_all.
Defined.

(** C2 (as stated) fails.  After [UpdateDuration(-1e308, 0)] on [far_pid]
    the accumulator is [Inf * 0 = NaN], outside [-100, 100]; a successful
    [SetIntegralLimits(-1, 1)] afterwards leaves it NaN. *)
Lemma integral_outside_limits :
  reachable far_pid_updated /\
  integralMin far_pid_updated = -100 /\ integralMax far_pid_updated = 100 /\
  is_nan (integral far_pid_updated) = true /\
  (integralMin far_pid_updated <=? integral far_pid_updated) = false /\
  (integral far_pid_updated <=? integralMax far_pid_updated) = false /\
  snd (SetIntegralLimits far_pid_updated (-1) 1) = None /\
  (integralMin (fst (SetIntegralLimits far_pid_updated (-1) 1))
     <=? integral (fst (SetIntegralLimits far_pid_updated (-1) 1))) = false.
Proof.
  split; [apply reachable_run_all|].
  repeat split; vm_compute; reflexivity.
Qed.

(** Shrinking the limits below the accumulated value: [wound_pid] holds
    100, and [SetIntegralLimits(-1, 1)] brings it to 1 at once. *)
Example shrink_reclamps_integral :
  integral wound_pid = 100 /\
  integral (fst (SetIntegralLimits wound_pid (-1) 1)) = 1.
Proof. split; vm_compute; reflexivity. Qed.

Lemma clamp_within (lo hi x : float) :
  (hi <? lo) = false ->
  (hi <? clamp lo hi x) = false /\
  (clamp lo hi x <? lo) = false /\
  (is_nan (clamp lo hi x) = false ->
   is_nan lo = false -> is_nan hi = false ->
   (lo <=? clamp lo hi x) = true /\ (clamp lo hi x <=? hi) = true).
Proof.
  intros H.
  assert (A := clamp_not_above lo hi H x).
  assert (B := clamp_not_below lo hi H x).
  split; [exact A|]. split; [exact B|].
  intros Hn Hlo Hhi. split; apply not_ltb_leb; assumption.
Qed.

(** C3. [SetOutputLimits] and [SetIntegralLimits] return an error exactly
    when [min > max]; the state is then the one before the call.  Without
    error the two limits are the arguments and every other field is as
    before, but for the accumulator, which [SetIntegralLimits] brings to
    the new maximum when above it and to the new minimum when below it.
    The next update then obeys the new limits: its output (for
    [SetOutputLimits]) and its accumulator (for [SetIntegralLimits]) are
    the new maximum when the unclamped value is above it, else the new
    minimum when it is below it, else the unclamped value; so they are
    never above the new maximum nor below the new minimum, and lie between
    the two when they and the limits are numbers. *)
Theorem set_limits_error_iff_min_greater :
  forall (pid : PID) (min max : float),
    (* SetOutputLimits *)
    ((snd (SetOutputLimits pid min max) <> None <-> (max <? min) = true) /\
     (snd (SetOutputLimits pid min max) <> None ->
      fst (SetOutputLimits pid min max) = pid) /\
     (snd (SetOutputLimits pid min max) = None ->
      outputMin (fst (SetOutputLimits pid min max)) = min /\
      outputMax (fst (SetOutputLimits pid min max)) = max /\
      same_config (fst (SetOutputLimits pid min max)) pid /\
      same_integralLimits (fst (SetOutputLimits pid min max)) pid /\
      prevValue (fst (SetOutputLimits pid min max)) = prevValue pid /\
      integral (fst (SetOutputLimits pid min max)) = integral pid /\
      prevError (fst (SetOutputLimits pid min max)) = prevError pid /\
      (forall value dt,
        snd (UpdateDuration (fst (SetOutputLimits pid min max)) value dt)
        = (if max <? step_raw pid value dt then max
           else if step_raw pid value dt <? min then min
           else step_raw pid value dt)) /\
      (forall now c pid' out,
        is_update c = true ->
        run now (fst (SetOutputLimits pid min max)) c = (pid', RFloat out) ->
        (max <? out) = false /\
        (out <? min) = false /\
        (is_nan out = false -> is_nan min = false -> is_nan max = false ->
         (min <=? out) = true /\ (out <=? max) = true)))) /\
    (* SetIntegralLimits *)
    ((snd (SetIntegralLimits pid min max) <> None <-> (max <? min) = true) /\
     (snd (SetIntegralLimits pid min max) <> None ->
      fst (SetIntegralLimits pid min max) = pid) /\
     (snd (SetIntegralLimits pid min max) = None ->
      integralMin (fst (SetIntegralLimits pid min max)) = min /\
      integralMax (fst (SetIntegralLimits pid min max)) = max /\
      integral (fst (SetIntegralLimits pid min max))
      = (if max <? integral pid then max
         else if integral pid <? min then min
         else integral pid) /\
      ((max <? integral (fst (SetIntegralLimits pid min max))) = false /\
       (integral (fst (SetIntegralLimits pid min max)) <? min) = false /\
       (is_nan (integral (fst (SetIntegralLimits pid min max))) = false ->
        is_nan min = false -> is_nan max = false ->
        (min <=? integral (fst (SetIntegralLimits pid min max))) = true /\
        (integral (fst (SetIntegralLimits pid min max)) <=? max) = true)) /\
      same_config (fst (SetIntegralLimits pid min max)) pid /\
      same_outputLimits (fst (SetIntegralLimits pid min max)) pid /\
      prevValue (fst (SetIntegralLimits pid min max)) = prevValue pid /\
      prevError (fst (SetIntegralLimits pid min max)) = prevError pid /\
      (forall value dt,
        integral (fst (UpdateDuration (fst (SetIntegralLimits pid min max))
                         value dt))
        = (if max <? integral (fst (SetIntegralLimits pid min max))
                     + step_err pid value * dt
           then max
           else if integral (fst (SetIntegralLimits pid min max))
                   + step_err pid value * dt <? min
           then min
           else integral (fst (SetIntegralLimits pid min max))
                + step_err pid value * dt)) /\
      (forall now c,
        is_update c = true ->
        (max <? integral (fst (run now (fst (SetIntegralLimits pid min max)) c)))
        = false /\
        (integral (fst (run now (fst (SetIntegralLimits pid min max)) c)) <? min)
        = false /\
        (is_nan (integral (fst (run now (fst (SetIntegralLimits pid min max)) c)))
         = false ->
         is_nan min = false -> is_nan max = false ->
         (min <=? integral (fst (run now (fst (SetIntegralLimits pid min max)) c)))
         = true /\
         (integral (fst (run now (fst (SetIntegralLimits pid min max)) c)) <=? max)
         = true)))).
Proof.
  intros pid min max.
  unfold SetOutputLimits, SetIntegralLimits.
  destruct (max <? min) eqn:E; cbn [fst snd].
  - split; (split; [split; [reflexivity | discriminate]|]);
      (split; [reflexivity | intros H; discriminate H]).
  - split.
    + split; [split; [intros H; contradiction H; reflexivity | discriminate]|].
      split; [intros H; contradiction H; reflexivity|].
      intros _.
      do 7 (split; [repeat split|]).
      split.
      * intros value dt. reflexivity.
      * intros now c pid' out Hc Hrun.
        assert (Hout : exists raw, out = clamp min max raw).
        { destruct c; try discriminate Hc; simpl in Hrun;
            injection Hrun as _ <-; eexists; reflexivity. }
        destruct Hout as [raw ->]. apply clamp_within, E.
    + split; [split; [intros H; contradiction H; reflexivity | discriminate]|].
      split; [intros H; contradiction H; reflexivity|].
      intros _.
      do 2 (split; [reflexivity|]).
      split; [reflexivity|].
      split; [apply (clamp_within min max (integral pid) E)|].
      do 4 (split; [repeat split|]).
      split.
      * intros value dt. reflexivity.
      * intros now c Hc.
        assert (Hint : exists x,
                   integral
                     (fst (run now
                             (with_integral (with_integralLimits pid min max)
                                (clamp
                                   (integralMin (with_integralLimits pid min max))
                                   (integralMax (with_integralLimits pid min max))
                                   (integral (with_integralLimits pid min max))))
                             c))
                   = clamp min max x).
        { destruct c; try discriminate Hc; eexists; reflexivity. }
        destruct Hint as [x ->]. apply clamp_within, E.
Qed.

(** On numbers: [wound_pid] has the gains (1, 1, 0), the set point 1000 and
    the accumulator 100.  After [SetOutputLimits(-5, 5)] the update whose
    unclamped output is 1100 returns 5, and the one at -1100 returns -5; after [SetIntegralLimits(-1, 1)] the
    accumulator is 1, stays 1 after an update that adds 1000 to it, and is
    -1 after one that takes 1000 off it. *)
Example accepted_limits_are_obeyed :
  step_raw wound_pid 0 1 = 1100 /\
  snd (SetOutputLimits wound_pid (-5) 5) = None /\
  snd (UpdateDuration (fst (SetOutputLimits wound_pid (-5) 5)) 0 1) = 5 /\
  snd (UpdateDuration (fst (SetOutputLimits wound_pid (-5) 5)) 2000 1) = -5 /\
  snd (SetIntegralLimits wound_pid (-1) 1) = None /\
  integral (fst (SetIntegralLimits wound_pid (-1) 1)) = 1 /\
  integral (fst (UpdateDuration (fst (SetIntegralLimits wound_pid (-1) 1)) 0 1))
  = 1 /\
  integral (fst (UpdateDuration (fst (SetIntegralLimits wound_pid (-1) 1))
                   2000 1))
  = -1.
Proof. repeat split; vm_compute; reflexivity. Qed.

(** The last step of [TestNewPID_ProportionalControl_OutputLimit]:
    [SetOutputLimits(5, 4)] is an error and the limits [2, 10] stay. *)
Example rejected_limits_keep_old_ones :
  snd (SetOutputLimits test_pid 5 4)
  = Some "min output greater than max output"%string /\
  outputMin (fst (SetOutputLimits test_pid 5 4)) = 2 /\
  outputMax (fst (SetOutputLimits test_pid 5 4)) = 10.
Proof. repeat split; vm_compute; reflexivity. Qed.

(** C5. The derivative term of a step is [-(value - prevValue) / dt] for
    [dt > 0] and 0 for [dt <= 0]; it is the term the output is built
    from; [prevValue] is 0 in a new controller and is the measured value
    after either update, so the next step differentiates against it. *)
Theorem derivative_on_measurement :
  forall (pid : PID) (now : GoTime.Time) (value dt : float),
    ((0 <? dt) = true ->
     step_derivative pid value dt = - (value - prevValue pid) / dt) /\
    ((dt <=? 0) = true -> step_derivative pid value dt = 0) /\
    snd (UpdateDuration pid value dt)
    = clamp (outputMin pid) (outputMax pid)
        (kp pid * step_err pid value
         + ki pid * integral (fst (UpdateDuration pid value dt))
         + kd pid * step_derivative pid value dt) /\
    (forall p i d db, prevValue (NewPID now p i d db) = 0) /\
    prevValue (fst (UpdateDuration pid value dt)) = value /\
    prevValue (fst (Update now pid value)) = value /\
    (forall value' dt',
        step_derivative (fst (UpdateDuration pid value dt)) value' dt'
        = if 0 <? dt' then - (value' - value) / dt' else 0).
Proof.
  intros pid now value dt. unfold step_derivative.
  repeat split.
  - intros ->. reflexivity.
  - intros H. rewrite (leb_not_ltb _ _ H). reflexivity.
Qed.

(** Two steps on concrete numbers: from a new controller the measurement 3
    over 0.5 s gives [-(3 - 0) / 0.5 = -6]; then 4 over 0.25 s gives
    [-(4 - 3) / 0.25 = -4]; with [dt = 0], [dt < 0] or [dt] NaN the term
    is 0. *)
Example derivative_steps :
  step_derivative (NewPID 0%Z 1 0 1 0) 3 0.5 = -6 /\
  step_derivative (fst (UpdateDuration (NewPID 0%Z 1 0 1 0) 3 0.5)) 4 0.25
  = -4 /\
  step_derivative (NewPID 0%Z 1 0 1 0) 3 0 = 0 /\
  step_derivative (NewPID 0%Z 1 0 1 0) 3 (-1) = 0 /\
  step_derivative (NewPID 0%Z 1 0 1 0) 3 nan = 0.
Proof. repeat split; vm_compute; reflexivity. Qed.

(** C6. The derivative term does not read the set point: two states with
    the same [prevValue] give the same term for the same measurement and
    [dt]; in particular [SetSetPoint] between two updates leaves the term
    of the second update as it would have been. *)
Theorem derivative_ignores_setPoint :
  forall (pid1 pid2 : PID) (value dt : float),
    prevValue pid1 = prevValue pid2 ->
    step_derivative pid1 value dt = step_derivative pid2 value dt.
Proof.
  intros pid1 pid2 value dt H. unfold step_derivative. rewrite H.
  reflexivity.
Qed.

Lemma derivative_ignores_setPoint_witness :
  step_derivative
    (SetSetPoint (fst (UpdateDuration test_pid 7 0.5)) (-40)) 7 0.5
  = step_derivative (fst (UpdateDuration test_pid 7 0.5)) 7 0.5.
Proof.
  apply (derivative_ignores_setPoint
           (SetSetPoint (fst (UpdateDuration test_pid 7 0.5)) (-40))
           (fst (UpdateDuration test_pid 7 0.5)) 7 0.5).
  reflexivity.
Defined.

(** [SetSetPoint] changes the set point and nothing else, so the states
    before and after it are a pair the theorem above speaks of. *)
Lemma SetSetPoint_frame pid val :
  setPoint (SetSetPoint pid val) = val /\
  prevValue (SetSetPoint pid val) = prevValue pid /\
  integral (SetSetPoint pid val) = integral pid /\
  prevError (SetSetPoint pid val) = prevError pid /\
  kp (SetSetPoint pid val) = kp pid /\
  ki (SetSetPoint pid val) = ki pid /\
  kd (SetSetPoint pid val) = kd pid /\
  deadBand (SetSetPoint pid val) = deadBand pid /\
  lastUpdate (SetSetPoint pid val) = lastUpdate pid /\
  same_outputLimits (SetSetPoint pid val) pid /\
  same_integralLimits (SetSetPoint pid val) pid.
Proof. repeat split. Qed.

(** C4 (as amended). In a reachable state, when
    [|setPoint - value| < deadBand] the step takes the error to be 0 and
    stores 0 as [prevError].  For a finite [kp] the proportional term is
    then a zero; for a finite [dt] the accumulator keeps its value; for
    both, the output is the clamp of a float with the value of
    [ki * integral + kd * derivative], the accumulator being the one of
    before the step. *)
Theorem dead_band_zeroes_error :
  forall (pid : PID) (value dt : float),
    reachable pid ->
    (abs (setPoint pid - value) <? deadBand pid) = true ->
    step_err pid value = 0 /\
    prevError (fst (UpdateDuration pid value dt)) = 0 /\
    (is_finite (kp pid) = true ->
     is_zero (kp pid * step_err pid value) = true) /\
    (is_finite dt = true ->
     same_value (integral (fst (UpdateDuration pid value dt)))
                (integral pid)) /\
    (is_finite (kp pid) = true -> is_finite dt = true ->
     same_value (snd (UpdateDuration pid value dt))
                (clamp (outputMin pid) (outputMax pid)
                   (ki pid * integral pid
                    + kd pid * step_derivative pid value dt))).
Proof.
  intros pid value dt R Hband.
  destruct (reachable_invariants pid R) as [_ [A B]].
  assert (Herr : step_err pid value = 0).
  { unfold step_err. rewrite Hband. reflexivity. }
  assert (Hint : is_finite dt = true ->
                 same_value (step_integral pid value dt) (integral pid)).
  { intros Hdt. unfold step_integral. rewrite Herr.
    apply clamp_keeps_same_value; try assumption.
    apply add_zero_r, mul_zero_l, Hdt. }
  split; [exact Herr|].
  split; [exact Herr|].
  split; [intros Hk; rewrite Herr; apply mul_zero_r, Hk|].
  split; [exact Hint|].
  intros Hk Hdt. rewrite UpdateDuration_output.
  apply clamp_same_value. unfold step_raw. rewrite Herr.
  apply add_same_value_l.
  eapply same_value_trans.
  - apply add_zero_l, mul_zero_r, Hk.
  - apply mul_same_value_r, Hint, Hdt.
Qed.

Lemma dead_band_zeroes_error_witness :
  step_err dead_pid 0.5 = 0 /\
  prevError (fst (UpdateDuration dead_pid 0.5 0.1)) = 0 /\
  (is_finite (kp dead_pid) = true ->
   is_zero (kp dead_pid * step_err dead_pid 0.5) = true) /\
  (is_finite 0.1 = true ->
   same_value (integral (fst (UpdateDuration dead_pid 0.5 0.1)))
              (integral dead_pid)) /\
  (is_finite (kp dead_pid) = true -> is_finite 0.1 = true ->
   same_value (snd (UpdateDuration dead_pid 0.5 0.1))
              (clamp (outputMin dead_pid) (outputMax dead_pid)
                 (ki dead_pid * integral dead_pid
                  + kd dead_pid * step_derivative dead_pid 0.5 0.1))).
Proof.
  apply (dead_band_zeroes_error dead_pid 0.5 0.1).
  - apply reachable_new.
  - vm_compute. reflexivity.
Defined.

(** C4 (as stated) fails.  [dead_pid] measures 0 at set point 0 with
    dead-band 1, so the error is zeroed; with [dt = +Inf] the accumulator
    goes from 0 to [0 + 0 * Inf = NaN]: the step did not leave it
    unchanged. *)
Lemma dead_band_integral_changed :
  reachable dead_pid /\
  (abs (setPoint dead_pid - 0) <? deadBand dead_pid) = true /\
  integral dead_pid = 0 /\
  is_nan (integral (fst (UpdateDuration dead_pid 0 infinity))) = true /\
  integral (fst (UpdateDuration dead_pid 0 infinity)) <> integral dead_pid /\
  ~ same_value (integral (fst (UpdateDuration dead_pid 0 infinity)))
               (integral dead_pid).
Proof.
  split; [apply reachable_new|].
  split; [vm_compute; reflexivity|].
  split; [reflexivity|].
  split; [vm_compute; reflexivity|].
  assert (N : integral (fst (UpdateDuration dead_pid 0 infinity))
              <> integral dead_pid).
  { intros H. apply (f_equal is_nan) in H. vm_compute in H. discriminate H. }
  split; [exact N|].
  intros [H | [H _]]; [exact (N H)|].
  vm_compute in H. discriminate H.
Qed.

(** Why "the same value" and not "the same float": in [negzero_pid] the
    accumulator is [-0]; a dead-band step over 1 s computes [-0 + 0 * 1],
    which is [+0]. *)
Example dead_band_zero_sign :
  Prim2SF (integral negzero_pid) = S754_zero true /\
  (abs (setPoint negzero_pid - 0) <? deadBand negzero_pid) = true /\
  Prim2SF (integral (fst (UpdateDuration negzero_pid 0 1))) = S754_zero false /\
  (integral (fst (UpdateDuration negzero_pid 0 1)) =? integral negzero_pid)
  = true.
Proof. repeat split; vm_compute; reflexivity. Qed.

(** C7. The scenario of [TestNewPID_ProportionalControl_OutputLimit]:
    gains (1, 0, 0), no dead-band, output limits [2, 10], set point 100;
    [UpdateDuration(0, 0.1)] returns exactly 10. *)
Theorem scenario_output_clamped_to_10 :
  forall now : GoTime.Time,
    let p := NewPID now 1 0 0 0 in
    exists p1,
      SetOutputLimits p 2 10 = (p1, None) /\
      step_raw (SetSetPoint p1 100) 0 0.1 = 100 /\
      snd (UpdateDuration (SetSetPoint p1 100) 0 0.1) = 10.
Proof.
  intros now p.
  exists (with_outputLimits p 2 10).
  repeat split; vm_compute; reflexivity.
Qed.

(** C8. [UpdateDuration] does not touch [lastUpdate], the gains, the set
    point, the dead-band or the four limits (what is left, [integral],
    [prevValue] and [prevError], it may change); and [Update] at the clock
    reading [now] is [UpdateDuration] with the elapsed seconds as [dt],
    but for [lastUpdate], which [Update] sets to [now]. *)
Theorem UpdateDuration_frame :
  forall (pid : PID) (now : GoTime.Time) (value dt : float),
    lastUpdate (fst (UpdateDuration pid value dt)) = lastUpdate pid /\
    same_config (fst (UpdateDuration pid value dt)) pid /\
    same_outputLimits (fst (UpdateDuration pid value dt)) pid /\
    same_integralLimits (fst (UpdateDuration pid value dt)) pid /\
    UpdateDuration pid value dt = updateInternal pid value dt /\
    Update now pid value
    = (with_lastUpdate
         (fst (UpdateDuration pid value
                 (GoTime.Seconds (GoTime.Sub now (lastUpdate pid))))) now,
       snd (UpdateDuration pid value
              (GoTime.Seconds (GoTime.Sub now (lastUpdate pid))))).
Proof.
  intros pid now value dt.
  unfold same_config, same_outputLimits, same_integralLimits.
  repeat split.
Qed.

(** The three fields [UpdateDuration] may change do change: in one step of
    [test_pid] all three get new values. *)
Example UpdateDuration_changes_history :
  integral test_pid = 0 /\ prevValue test_pid = 0 /\ prevError test_pid = 0 /\
  integral (fst (UpdateDuration test_pid 1 0.5)) = 49.5 /\
  prevValue (fst (UpdateDuration test_pid 1 0.5)) = 1 /\
  prevError (fst (UpdateDuration test_pid 1 0.5)) = 99.
Proof. repeat split; vm_compute; reflexivity. Qed.

(** [Update] 100 ms after the controller was made computes [dt = 0.1] and
    does what [UpdateDuration(0, 0.1)] does, and moves [lastUpdate]. *)
Example Update_after_100ms :
  GoTime.Seconds (GoTime.Sub 100000000%Z (lastUpdate test_pid)) = 0.1 /\
  snd (Update 100000000%Z test_pid 0) = snd (UpdateDuration test_pid 0 0.1) /\
  lastUpdate (fst (Update 100000000%Z test_pid 0)) = 100000000%Z /\
  lastUpdate (fst (UpdateDuration test_pid 0 0.1)) = 0%Z.
Proof. repeat split; vm_compute; reflexivity. Qed.

(** C9. [UpdateDuration] has no input besides the state and its two
    arguments.  Run against any two clocks, from two states that agree on
    the gains, limits, set point, dead-band, [prevValue] and [integral]
    (they may differ in the time stored in [lastUpdate] and in
    [prevError]), with equal arguments, it returns the same output, leaves
    states that agree again and have the same [prevError], keeps each
    [lastUpdate], and takes no reading of the clock.  So from equal states
    the outputs are equal and the resulting states are equal. *)
Theorem UpdateDuration_deterministic :
  forall (c1 c2 : Clock) (pid1 pid2 : PID) (value1 value2 dt1 dt2 : float),
    same_step_inputs pid1 pid2 -> value1 = value2 -> dt1 = dt2 ->
    snd (fst (UpdateDuration_at_clock pid1 value1 dt1 c1))
    = snd (fst (UpdateDuration_at_clock pid2 value2 dt2 c2)) /\
    same_step_inputs (fst (fst (UpdateDuration_at_clock pid1 value1 dt1 c1)))
                     (fst (fst (UpdateDuration_at_clock pid2 value2 dt2 c2))) /\
    prevError (fst (fst (UpdateDuration_at_clock pid1 value1 dt1 c1)))
    = prevError (fst (fst (UpdateDuration_at_clock pid2 value2 dt2 c2))) /\
    lastUpdate (fst (fst (UpdateDuration_at_clock pid1 value1 dt1 c1)))
    = lastUpdate pid1 /\
    lastUpdate (fst (fst (UpdateDuration_at_clock pid2 value2 dt2 c2)))
    = lastUpdate pid2 /\
    snd (UpdateDuration_at_clock pid1 value1 dt1 c1) = c1 /\
    snd (UpdateDuration_at_clock pid2 value2 dt2 c2) = c2 /\
    (pid1 = pid2 ->
     fst (UpdateDuration_at_clock pid1 value1 dt1 c1)
     = fst (UpdateDuration_at_clock pid2 value2 dt2 c2)).
Proof.
  intros c1 c2 pid1 pid2 value1 value2 dt1 dt2 S -> ->.
  unfold UpdateDuration_at_clock, ret. cbn [fst snd].
  assert (Eerr : step_err pid1 value2 = step_err pid2 value2).
  { unfold step_err, same_step_inputs in *.
    destruct S as (_ & _ & _ & _ & _ & _ & _ & -> & -> & _). reflexivity. }
  assert (Eint : step_integral pid1 value2 dt2 = step_integral pid2 value2 dt2).
  { unfold step_integral. rewrite Eerr. unfold same_step_inputs in S.
    destruct S as (_ & _ & _ & _ & _ & -> & -> & _ & _ & _ & ->).
    reflexivity. }
  assert (Eder : step_derivative pid1 value2 dt2
                 = step_derivative pid2 value2 dt2).
  { unfold step_derivative. unfold same_step_inputs in S.
    destruct S as (_ & _ & _ & _ & _ & _ & _ & _ & _ & -> & _).
    reflexivity. }
  assert (Eraw : step_raw pid1 value2 dt2 = step_raw pid2 value2 dt2).
  { unfold step_raw. rewrite Eerr, Eint, Eder. unfold same_step_inputs in S.
    destruct S as (-> & -> & -> & _). reflexivity. }
  split.
  { rewrite !UpdateDuration_output, Eraw. unfold same_step_inputs in S.
    destruct S as (_ & _ & _ & -> & -> & _). reflexivity. }
  split.
  { unfold same_step_inputs in *. unfold UpdateDuration, updateInternal.
    cbn [fst kp ki kd outputMin outputMax integralMin integralMax setPoint
         deadBand prevValue integral].
    destruct S as (A1 & A2 & A3 & A4 & A5 & A6 & A7 & A8 & A9 & _ & _).
    repeat (split; [assumption|]). split; [reflexivity | exact Eint]. }
  split; [exact Eerr|].
  do 4 (split; [reflexivity|]).
  intros ->. reflexivity.
Qed.

Lemma UpdateDuration_deterministic_witness :
  snd (fst (UpdateDuration_at_clock test_pid 1 0.5 clock_a))
  = snd (fst (UpdateDuration_at_clock
                (with_prevError (with_lastUpdate test_pid 77%Z) 3) 1 0.5
                clock_b)) /\
  same_step_inputs
    (fst (fst (UpdateDuration_at_clock test_pid 1 0.5 clock_a)))
    (fst (fst (UpdateDuration_at_clock
                 (with_prevError (with_lastUpdate test_pid 77%Z) 3) 1 0.5
                 clock_b))) /\
  prevError (fst (fst (UpdateDuration_at_clock test_pid 1 0.5 clock_a)))
  = prevError
      (fst (fst (UpdateDuration_at_clock
                   (with_prevError (with_lastUpdate test_pid 77%Z) 3) 1 0.5
                   clock_b))) /\
  lastUpdate (fst (fst (UpdateDuration_at_clock test_pid 1 0.5 clock_a)))
  = lastUpdate test_pid /\
  lastUpdate
    (fst (fst (UpdateDuration_at_clock
                 (with_prevError (with_lastUpdate test_pid 77%Z) 3) 1 0.5
                 clock_b)))
  = lastUpdate (with_prevError (with_lastUpdate test_pid 77%Z) 3) /\
  snd (UpdateDuration_at_clock test_pid 1 0.5 clock_a) = clock_a /\
  snd (UpdateDuration_at_clock
         (with_prevError (with_lastUpdate test_pid 77%Z) 3) 1 0.5 clock_b)
  = clock_b /\
  (test_pid = with_prevError (with_lastUpdate test_pid 77%Z) 3 ->
   fst (UpdateDuration_at_clock test_pid 1 0.5 clock_a)
   = fst (UpdateDuration_at_clock
            (with_prevError (with_lastUpdate test_pid 77%Z) 3) 1 0.5
            clock_b)).
Proof.
  apply (UpdateDuration_deterministic clock_a clock_b test_pid
           (with_prevError (with_lastUpdate test_pid 77%Z) 3) 1 1 0.5 0.5).
  - repeat split.
  - reflexivity.
  - reflexivity.
Defined.

(** The clock is an input that counts: [Update] takes one reading of it,
    and the same state and measurement against [clock_a] and [clock_b]
    give two outputs (20 after 1 s, 30 after 2 s), where [UpdateDuration]
    with either [dt] gives the same on both. *)
Example Update_depends_on_the_clock :
  snd (fst (Update_at_clock dead_pid (-10) clock_a)) = 20 /\
  snd (fst (Update_at_clock dead_pid (-10) clock_b)) = 30 /\
  taken (snd (Update_at_clock dead_pid (-10) clock_a)) = S (taken clock_a) /\
  lastUpdate (fst (fst (Update_at_clock dead_pid (-10) clock_b)))
  = 2000000000%Z /\
  snd (fst (UpdateDuration_at_clock dead_pid (-10) 1 clock_a)) = 20 /\
  snd (fst (UpdateDuration_at_clock dead_pid (-10) 1 clock_b)) = 20.
Proof. repeat split; vm_compute; reflexivity. Qed.

(** In the model, [Update] and [NewPID] against a clock are the functions
    of the reading used elsewhere in this file. *)
Lemma Update_at_clock_reading pid value c :
  Update_at_clock pid value c
  = (Update (readings c (taken c)) pid value,
     {| readings := readings c; taken := S (taken c) |}).
Proof. reflexivity. Qed.

Lemma NewPID_at_clock_reading p i d db c :
  NewPID_at_clock p i d db c
  = (NewPID (readings c (taken c)) p i d db,
     {| readings := readings c; taken := S (taken c) |}).
Proof. reflexivity. Qed.

(** [Update] is not: the same state and measurement at two clock readings
    give two outputs. *)
Example Update_reads_the_clock :
  snd (Update 1000000000%Z dead_pid (-10)) = 20 /\
  snd (Update 2000000000%Z dead_pid (-10)) = 30.
Proof. split; vm_compute; reflexivity. Qed.

(** C10. The dead-band test is strict: an error whose magnitude equals
    [deadBand] is kept; and in a controller made with a negative
    [deadBand], whatever calls it has seen, every update keeps the error
    [setPoint - value] and stores it as [prevError]. *)
Theorem dead_band_strict :
  forall (pid : PID) (value dt : float),
    ((abs (setPoint pid - value) =? deadBand pid) = true ->
     step_err pid value = setPoint pid - value /\
     prevError (fst (UpdateDuration pid value dt)) = setPoint pid - value) /\
    (forall now0 p i d db now,
        (db <? 0) = true ->
        reachable_from (NewPID now0 p i d db) pid ->
        step_err pid value = setPoint pid - value /\
        prevError (fst (UpdateDuration pid value dt)) = setPoint pid - value /\
        prevError (fst (Update now pid value)) = setPoint pid - value).
Proof.
  intros pid value dt. split.
  - intros H. apply eqb_not_ltb in H.
    unfold UpdateDuration, updateInternal, step_err. simpl.
    rewrite H. split; reflexivity.
  - intros now0 p i d db now Hdb R.
    apply reachable_from_deadBand in R. simpl in R.
    assert (H : (abs (setPoint pid - value) <? deadBand pid) = false).
    { rewrite R. apply abs_not_ltb_negative, Hdb. }
    unfold Update, UpdateDuration, updateInternal, step_err. simpl.
    rewrite H. repeat split.
Qed.

(** On numbers: with dead-band 5 and set point 5, measuring 0 gives the
    error 5, kept, while measuring 0.5 gives 4.5, zeroed; with dead-band
    -1 the error 0.5 is kept, and so is the error 0. *)
Example dead_band_boundary :
  step_err band5_pid 0 = 5 /\
  step_err band5_pid 0.5 = 0 /\
  step_err negband_pid 0 = 0.5 /\
  (abs (setPoint negband_pid - 0.5) <? deadBand negband_pid) = false.
Proof. repeat split; vm_compute; reflexivity. Qed.

(** ** Beyond the claims: more facts on floats *)

Section FloatNaN.

Lemma add_nan_l (x y : float) : is_nan x = true -> is_nan (x + y) = true.
Proof.
  rewrite !is_nan_true, add_spec. intros ->. reflexivity.
Qed.

Lemma add_nan_r (x y : float) : is_nan y = true -> is_nan (x + y) = true.
Proof.
  rewrite !is_nan_true, add_spec. intros ->.
  destruct (Prim2SF x); reflexivity.
Qed.

Lemma sub_nan_r (x y : float) : is_nan y = true -> is_nan (x - y) = true.
Proof.
  rewrite !is_nan_true, sub_spec. intros ->.
  destruct (Prim2SF x); reflexivity.
Qed.

Lemma mul_nan_l (x y : float) : is_nan x = true -> is_nan (x * y) = true.
Proof.
  rewrite !is_nan_true, mul_spec. intros ->. reflexivity.
Qed.

Lemma mul_nan_r (x y : float) : is_nan y = true -> is_nan (x * y) = true.
Proof.
  rewrite !is_nan_true, mul_spec. intros ->.
  destruct (Prim2SF x); reflexivity.
Qed.

Lemma abs_nan (x : float) : is_nan x = true -> is_nan (abs x) = true.
Proof.
  rewrite !is_nan_true, abs_spec. intros ->. reflexivity.
Qed.

Lemma clamp_of_nan (lo hi x : float) : is_nan x = true -> clamp lo hi x = x.
Proof.
  intros H. apply clamp_id; auto using ltb_nan_l, ltb_nan_r.
Qed.

Lemma sub_zero_r (x : float) : x - 0 = x.
Proof.
  apply Prim2SF_inj. rewrite sub_spec, Prim2SF_zero.
  destruct (Prim2SF x) as [[]|[]| |[] m e]; reflexivity.
Qed.

Lemma ltb_infinity_l (x : float) : (infinity <? x) = false.
Proof.
  rewrite FloatAxioms.ltb_spec, Prim2SF_infinity.
  destruct (Prim2SF x) as [[]|[]| |[] m e]; reflexivity.
Qed.

Lemma ltb_neg_infinity_r (x : float) : (x <? neg_infinity) = false.
Proof.
  rewrite FloatAxioms.ltb_spec.
  change (Prim2SF neg_infinity) with (S754_infinity true).
  destruct (Prim2SF x) as [[]|[]| |[] m e]; reflexivity.
Qed.

Lemma not_ltb_eqb (x y : float) :
  is_nan x = false -> is_nan y = false ->
  (x <? y) = false -> (y <? x) = false -> (x =? y) = true.
Proof.
  rewrite !is_nan_false, !FloatAxioms.ltb_spec, FloatAxioms.eqb_spec.
  unfold SFltb, SFeqb. rewrite (SFcompare_antisym (Prim2SF x) (Prim2SF y)).
  intros Hx Hy.
  destruct (Prim2SF x) as [[]|[]| |[] m1 e1], (Prim2SF y) as [[]|[]| |[] m2 e2];
    try congruence; simpl; try congruence.
  all: destruct (e1 ?= e2)%Z; simpl; try congruence;
    destruct (Pos.compare_cont Eq m1 m2); simpl; congruence.
Qed.

End FloatNaN.

(** ** Beyond the claims: histories *)

Lemma run_all_cons pid now c h :
  run_all pid ((now, c) :: h) = run_all (fst (run now pid c)) h.
Proof. reflexivity. Qed.

Lemma run_GetPID now pid c :
  GetPID (fst (run now pid c))
  = match c with CallSetPID p i d => (p, i, d) | _ => GetPID pid end.
Proof.
  destruct c; unfold_methods; simpl; try reflexivity;
    destruct (max <? min); reflexivity.
Qed.

Lemma run_GetSetPoint now pid c :
  GetSetPoint (fst (run now pid c))
  = match c with CallSetSetPoint x => x | _ => GetSetPoint pid end.
Proof.
  destruct c; unfold_methods; simpl; try reflexivity;
    destruct (max <? min); reflexivity.
Qed.

Lemma run_lastUpdate now pid c :
  lastUpdate (fst (run now pid c))
  = match c with CallUpdate _ => now | _ => lastUpdate pid end.
Proof.
  destruct c; unfold_methods; simpl; try reflexivity;
    destruct (max <? min); reflexivity.
Qed.

(** X1. Whatever a history holds besides (updates, limit changes,
    rejected calls), [GetPID] after it returns the gains of its last
    [SetPID], and the gains given to [NewPID] when it has none; and it
    returns them without changing the state. *)
Theorem GetPID_returns_last_SetPID :
  forall (now : GoTime.Time) (p i d db : float)
         (h : list (GoTime.Time * call)) (now' : GoTime.Time),
    GetPID (run_all (NewPID now p i d db) h) = last_gains (p, i, d) h /\
    run now' (run_all (NewPID now p i d db) h) CallGetPID
    = (run_all (NewPID now p i d db) h,
       let '(p', i', d') := last_gains (p, i, d) h in RGains p' i' d').
Proof.
  intros now p i d db h now'.
  assert (G : forall pid, GetPID (run_all pid h) = last_gains (GetPID pid) h).
  { induction h as [|[t c] h IH]; intros pid; [reflexivity|].
    rewrite run_all_cons, IH, run_GetPID.
    unfold last_gains. simpl. destruct c; reflexivity. }
  specialize (G (NewPID now p i d db)).
  change (GetPID (NewPID now p i d db)) with (p, i, d) in G.
  split; [exact G|].
  unfold run. rewrite G.
  destruct (last_gains (p, i, d) h) as [[p' i'] d']. reflexivity.
Qed.

(** X2. [GetSetPoint] after a history returns the value of its last
    [SetSetPoint], and 0 when it has none. *)
Theorem GetSetPoint_returns_last_SetSetPoint :
  forall (now : GoTime.Time) (p i d db : float)
         (h : list (GoTime.Time * call)) (now' : GoTime.Time),
    GetSetPoint (run_all (NewPID now p i d db) h) = last_setPoint 0 h /\
    run now' (run_all (NewPID now p i d db) h) CallGetSetPoint
    = (run_all (NewPID now p i d db) h, RFloat (last_setPoint 0 h)).
Proof.
  intros now p i d db h now'.
  assert (G : forall pid,
             GetSetPoint (run_all pid h) = last_setPoint (GetSetPoint pid) h).
  { induction h as [|[t c] h IH]; intros pid; [reflexivity|].
    rewrite run_all_cons, IH, run_GetSetPoint.
    unfold last_setPoint. simpl. destruct c; reflexivity. }
  specialize (G (NewPID now p i d db)).
  change (GetSetPoint (NewPID now p i d db)) with 0 in G.
  split; [exact G|].
  unfold run. rewrite G. reflexivity.
Qed.

(** X3. [lastUpdate] after a history is the clock reading of its last
    [Update], and the time of [NewPID] when it has none: no other method
    moves it, [UpdateDuration] included.  So the next [Update] measures
    its [dt] from there. *)
Theorem lastUpdate_is_last_Update :
  forall (now : GoTime.Time) (p i d db : float)
         (h : list (GoTime.Time * call)) (now' : GoTime.Time) (value : float),
    lastUpdate (run_all (NewPID now p i d db) h) = last_Update now h /\
    Update now' (run_all (NewPID now p i d db) h) value
    = updateInternal
        (with_lastUpdate (run_all (NewPID now p i d db) h) now') value
        (GoTime.Seconds (GoTime.Sub now' (last_Update now h))).
Proof.
  intros now p i d db h now' value.
  assert (G : forall pid,
             lastUpdate (run_all pid h) = last_Update (lastUpdate pid) h).
  { induction h as [|[t c] h IH]; intros pid; [reflexivity|].
    rewrite run_all_cons, IH, run_lastUpdate.
    unfold last_Update. simpl. destruct c; reflexivity. }
  specialize (G (NewPID now p i d db)).
  change (lastUpdate (NewPID now p i d db)) with now in G.
  split; [exact G|].
  unfold Update. rewrite G. reflexivity.
Qed.

Lemma lastUpdate_eta pid : with_lastUpdate pid (lastUpdate pid) = pid.
Proof. destruct pid; reflexivity. Qed.

Lemma prevError_eta pid : with_prevError pid (prevError pid) = pid.
Proof. destruct pid; reflexivity. Qed.

Lemma run_outputLimits now pid c :
  is_SetOutputLimits c = false ->
  outputMin (fst (run now pid c)) = outputMin pid /\
  outputMax (fst (run now pid c)) = outputMax pid.
Proof.
  destruct c; unfold_methods; simpl; intros H; try discriminate H;
    try (split; reflexivity).
  destruct (max <? min); split; reflexivity.
Qed.

Lemma run_prevValue now pid c :
  is_update c = false -> prevValue (fst (run now pid c)) = prevValue pid.
Proof.
  destruct c; unfold_methods; simpl; intros H; try discriminate H;
    try reflexivity; destruct (max <? min); reflexivity.
Qed.

(** X4. As long as [SetOutputLimits] has not been called, the output
    limits are the infinities of [NewPID] and no update clamps: either
    entry point returns the unclamped sum of the three terms. *)
Theorem default_output_limits_never_clamp :
  forall (now : GoTime.Time) (p i d db : float)
         (h : list (GoTime.Time * call)) (now' : GoTime.Time)
         (value dt : float),
    Forall (fun nc => is_SetOutputLimits (snd nc) = false) h ->
    snd (UpdateDuration (run_all (NewPID now p i d db) h) value dt)
    = step_raw (run_all (NewPID now p i d db) h) value dt /\
    snd (Update now' (run_all (NewPID now p i d db) h) value)
    = step_raw (with_lastUpdate (run_all (NewPID now p i d db) h) now') value
        (GoTime.Seconds
           (GoTime.Sub now' (lastUpdate (run_all (NewPID now p i d db) h)))).
Proof.
  intros now p i d db h now' value dt F.
  assert (L : forall pid,
             outputMin (run_all pid h) = outputMin pid /\
             outputMax (run_all pid h) = outputMax pid).
  { induction F as [|[t c] h Hc F IH]; intros pid; [split; reflexivity|].
    rewrite run_all_cons.
    destruct (IH (fst (run t pid c))) as [-> ->].
    apply run_outputLimits. exact Hc. }
  destruct (L (NewPID now p i d db)) as [Lmin Lmax]. simpl in Lmin, Lmax.
  unfold Update, UpdateDuration, updateInternal. simpl.
  rewrite Lmin, Lmax.
  split; apply clamp_id; auto using ltb_infinity_l, ltb_neg_infinity_r.
Qed.

Lemma default_output_limits_never_clamp_witness :
  snd (UpdateDuration
         (run_all (NewPID 0%Z 1 0 0 0) [(0%Z, CallSetSetPoint 100)]) 0 0.1)
  = step_raw (run_all (NewPID 0%Z 1 0 0 0) [(0%Z, CallSetSetPoint 100)])
      0 0.1 /\
  snd (Update 5%Z (run_all (NewPID 0%Z 1 0 0 0) [(0%Z, CallSetSetPoint 100)]) 0)
  = step_raw
      (with_lastUpdate
         (run_all (NewPID 0%Z 1 0 0 0) [(0%Z, CallSetSetPoint 100)]) 5%Z) 0
      (GoTime.Seconds
         (GoTime.Sub 5%Z
            (lastUpdate
               (run_all (NewPID 0%Z 1 0 0 0) [(0%Z, CallSetSetPoint 100)])))).
Proof.
  apply (default_output_limits_never_clamp 0%Z 1 0 0 0
           [(0%Z, CallSetSetPoint 100)] 5%Z 0 0.1).
  repeat constructor.
Defined.

(** X5. A NaN limit passes the range check of both setters, since
    [min > max] is false when either is NaN; the side of the clamp that
    compares with the NaN limit is then off: with a NaN maximum the output
    is only raised to the minimum, with a NaN minimum only lowered to the
    maximum. *)
Theorem nan_limits_are_accepted :
  forall (pid : PID) (min max : float),
    is_nan min = true \/ is_nan max = true ->
    snd (SetOutputLimits pid min max) = None /\
    snd (SetIntegralLimits pid min max) = None /\
    (is_nan max = true ->
     forall value dt,
       snd (UpdateDuration (fst (SetOutputLimits pid min max)) value dt)
       = if step_raw pid value dt <? min then min
         else step_raw pid value dt) /\
    (is_nan min = true ->
     forall value dt,
       snd (UpdateDuration (fst (SetOutputLimits pid min max)) value dt)
       = if max <? step_raw pid value dt then max
         else step_raw pid value dt).
Proof.
  intros pid min max H.
  assert (E : (max <? min) = false).
  { destruct H as [H | H]; [apply ltb_nan_r | apply ltb_nan_l]; exact H. }
  unfold SetOutputLimits, SetIntegralLimits. rewrite E. cbn [fst snd].
  split; [reflexivity|]. split; [reflexivity|].
  split; intros N value dt; rewrite UpdateDuration_output;
    change (step_raw (with_outputLimits pid min max) value dt)
      with (step_raw pid value dt);
    cbn [outputMin outputMax with_outputLimits]; unfold clamp.
  - rewrite (ltb_nan_l max _ N). reflexivity.
  - rewrite (ltb_nan_r _ min N). reflexivity.
Qed.

Lemma nan_limits_are_accepted_witness :
  snd (SetOutputLimits test_pid 2 nan) = None /\
  snd (SetIntegralLimits test_pid 2 nan) = None /\
  (is_nan nan = true ->
   forall value dt,
     snd (UpdateDuration (fst (SetOutputLimits test_pid 2 nan)) value dt)
     = if step_raw test_pid value dt <? 2 then 2
       else step_raw test_pid value dt) /\
  (is_nan 2 = true ->
   forall value dt,
     snd (UpdateDuration (fst (SetOutputLimits test_pid 2 nan)) value dt)
     = if nan <? step_raw test_pid value dt then nan
       else step_raw test_pid value dt).
Proof.
  apply (nan_limits_are_accepted test_pid 2 nan).
  right. reflexivity.
Defined.

(** With the maximum NaN, [test_pid] returns its raw output 100, above
    the 10 that [SetOutputLimits(2, 10)] had set. *)
Example nan_maximum_lets_100_through :
  snd (UpdateDuration (fst (SetOutputLimits test_pid 2 nan)) 0 0.1) = 100.
Proof. vm_compute. reflexivity. Qed.

(** X6. In a reachable state, setting the limits that are already in
    effect is accepted and changes nothing: the range check passes and the
    accumulator is already clamped. *)
Theorem resetting_current_limits_is_noop :
  forall pid : PID,
    reachable pid ->
    SetOutputLimits pid (outputMin pid) (outputMax pid) = (pid, None) /\
    SetIntegralLimits pid (integralMin pid) (integralMax pid) = (pid, None).
Proof.
  intros pid R.
  destruct (reachable_invariants pid R) as [[Ho Hi] [A B]].
  unfold SetOutputLimits, SetIntegralLimits. rewrite Ho, Hi. simpl.
  rewrite (clamp_id _ _ _ A B).
  destruct pid; split; reflexivity.
Qed.

Lemma resetting_current_limits_is_noop_witness :
  SetOutputLimits wound_pid (outputMin wound_pid) (outputMax wound_pid)
  = (wound_pid, None) /\
  SetIntegralLimits wound_pid (integralMin wound_pid) (integralMax wound_pid)
  = (wound_pid, None).
Proof.
  apply (resetting_current_limits_is_noop wound_pid).
  apply reachable_run_all.
Defined.

Lemma run_integral_nan now pid c :
  is_nan (integral pid) = true ->
  is_nan (integral (fst (run now pid c))) = true.
Proof.
  intros N. destruct c; unfold_methods; simpl; try exact N.
  - destruct (max <? min); exact N.
  - destruct (max <? min); simpl; [exact N|].
    rewrite clamp_of_nan; exact N.
  - unfold step_integral. simpl.
    rewrite clamp_of_nan; apply add_nan_l; exact N.
  - unfold step_integral.
    rewrite clamp_of_nan; apply add_nan_l; exact N.
Qed.

Lemma nan_integral_nan_output pid value dt :
  is_nan (integral pid) = true ->
  is_nan (snd (updateInternal pid value dt)) = true.
Proof.
  intros N. unfold updateInternal. simpl.
  assert (I : is_nan (step_integral pid value dt) = true).
  { unfold step_integral. rewrite clamp_of_nan; apply add_nan_l; exact N. }
  assert (R : is_nan (step_raw pid value dt) = true).
  { unfold step_raw. apply add_nan_l, add_nan_r, mul_nan_r, I. }
  rewrite clamp_of_nan; exact R.
Qed.

(** X7. A NaN accumulator is for good: no call of any history takes it
    back to a number (no method assigns [integral] but through [+=] and the
    clamp), and from then on every update returns NaN, whatever the gains
    (an integral gain of 0 included), the limits and the arguments. *)
Theorem nan_integral_is_permanent :
  forall (pid : PID) (h : list (GoTime.Time * call))
         (now : GoTime.Time) (value dt : float),
    is_nan (integral pid) = true ->
    is_nan (integral (run_all pid h)) = true /\
    is_nan (snd (UpdateDuration (run_all pid h) value dt)) = true /\
    is_nan (snd (Update now (run_all pid h) value)) = true.
Proof.
  intros pid h now value dt N.
  assert (I : is_nan (integral (run_all pid h)) = true).
  { revert pid N. induction h as [|[t c] h IH]; intros pid N; [exact N|].
    rewrite run_all_cons. apply IH, run_integral_nan, N. }
  split; [exact I|].
  split; [apply nan_integral_nan_output, I|].
  unfold Update. apply nan_integral_nan_output. exact I.
Qed.

Lemma nan_integral_is_permanent_witness :
  is_nan (integral
            (run_all far_pid_updated
               [(1%Z, CallSetIntegralLimits (-1) 1); (2%Z, CallSetPID 1 0 0)]))
  = true /\
  is_nan (snd (UpdateDuration
                 (run_all far_pid_updated
                    [(1%Z, CallSetIntegralLimits (-1) 1);
                     (2%Z, CallSetPID 1 0 0)]) 3 0.5)) = true /\
  is_nan (snd (Update 7%Z
                 (run_all far_pid_updated
                    [(1%Z, CallSetIntegralLimits (-1) 1);
                     (2%Z, CallSetPID 1 0 0)]) 3)) = true.
Proof.
  apply (nan_integral_is_permanent far_pid_updated
           [(1%Z, CallSetIntegralLimits (-1) 1); (2%Z, CallSetPID 1 0 0)]
           7%Z 3 0.5).
  vm_compute. reflexivity.
Defined.

(** X8. A NaN measurement is not caught by the dead-band (the test is
    false on NaN): the error stored is NaN, the accumulator becomes NaN and
    the update returns NaN, in every state and for every [dt]. *)
Theorem nan_measurement_poisons :
  forall (pid : PID) (value dt : float),
    is_nan value = true ->
    is_nan (snd (UpdateDuration pid value dt)) = true /\
    is_nan (integral (fst (UpdateDuration pid value dt))) = true /\
    is_nan (prevError (fst (UpdateDuration pid value dt))) = true.
Proof.
  intros pid value dt N.
  assert (E0 : is_nan (setPoint pid - value) = true)
    by (apply sub_nan_r, N).
  assert (E : is_nan (step_err pid value) = true).
  { unfold step_err.
    rewrite (ltb_nan_l _ (deadBand pid) (abs_nan _ E0)). exact E0. }
  assert (I : is_nan (step_integral pid value dt) = true).
  { unfold step_integral.
    rewrite clamp_of_nan; apply add_nan_r, mul_nan_l, E. }
  assert (R : is_nan (step_raw pid value dt) = true).
  { unfold step_raw. apply add_nan_l, add_nan_r, mul_nan_r, I. }
  unfold UpdateDuration, updateInternal. simpl.
  split; [rewrite clamp_of_nan; exact R|].
  split; [exact I | exact E].
Qed.

Lemma nan_measurement_poisons_witness :
  is_nan (snd (UpdateDuration test_pid nan 0.1)) = true /\
  is_nan (integral (fst (UpdateDuration test_pid nan 0.1))) = true /\
  is_nan (prevError (fst (UpdateDuration test_pid nan 0.1))) = true.
Proof.
  apply (nan_measurement_poisons test_pid nan 0.1). reflexivity.
Defined.

Lemma Seconds_Sub_diag (t : GoTime.Time) :
  GoTime.Seconds (GoTime.Sub t t) = 0.
Proof.
  unfold GoTime.Sub. rewrite Z.sub_diag. reflexivity.
Qed.

(** X9. A step with [dt = 0]: the derivative term is 0 and, when the
    error is finite, the accumulator keeps its value.  [Update] at the very
    clock reading of [lastUpdate] is such a step: it is
    [UpdateDuration(value, 0)]. *)
Theorem zero_dt_step :
  forall (pid : PID) (value : float),
    reachable pid ->
    is_finite (step_err pid value) = true ->
    step_derivative pid value 0 = 0 /\
    same_value (integral (fst (UpdateDuration pid value 0))) (integral pid) /\
    Update (lastUpdate pid) pid value = UpdateDuration pid value 0.
Proof.
  intros pid value R F.
  destruct (reachable_invariants pid R) as [_ [A B]].
  split; [reflexivity|].
  split.
  - unfold UpdateDuration, updateInternal, step_integral. simpl.
    apply clamp_keeps_same_value; try assumption.
    apply add_zero_r, mul_zero_r, F.
  - unfold Update. rewrite Seconds_Sub_diag, lastUpdate_eta. reflexivity.
Qed.

Lemma zero_dt_step_witness :
  step_derivative wound_pid 3 0 = 0 /\
  same_value (integral (fst (UpdateDuration wound_pid 3 0)))
             (integral wound_pid) /\
  Update (lastUpdate wound_pid) wound_pid 3 = UpdateDuration wound_pid 3 0.
Proof.
  apply (zero_dt_step wound_pid 3).
  - apply reachable_run_all.
  - vm_compute. reflexivity.
Defined.

(** X10. A proportional controller ([ki = 0] and [kd = 0]) returns the
    clamp of [kp * err], as long as the accumulator and the derivative of
    the step are finite: the two other terms are then zeros.  (An infinite
    derivative times the gain 0 is NaN.) *)
Theorem proportional_only_output :
  forall (pid : PID) (value dt : float),
    ki pid = 0 -> kd pid = 0 ->
    is_finite (integral (fst (UpdateDuration pid value dt))) = true ->
    is_finite (step_derivative pid value dt) = true ->
    same_value (snd (UpdateDuration pid value dt))
               (clamp (outputMin pid) (outputMax pid)
                  (kp pid * step_err pid value)).
Proof.
  intros pid value dt Hi Hd FI FD.
  rewrite UpdateDuration_output. apply clamp_same_value.
  unfold step_raw. rewrite Hi, Hd.
  eapply same_value_trans.
  - apply add_zero_r, mul_zero_l, FD.
  - apply add_zero_r, mul_zero_l, FI.
Qed.

Lemma proportional_only_output_witness :
  same_value (snd (UpdateDuration test_pid 97 0.5))
             (clamp (outputMin test_pid) (outputMax test_pid)
                (kp test_pid * step_err test_pid 97)).
Proof.
  apply (proportional_only_output test_pid 97 0.5);
    vm_compute; reflexivity.
Defined.

(** The gain 0 does not switch an infinite derivative off: in a
    proportional controller the measurements -1e308 then 1e308 give the
    derivative -Inf and the output NaN. *)
Example zero_gain_times_infinite_derivative :
  kd test_pid = 0 /\
  step_derivative (fst (UpdateDuration test_pid (-1e308) 1)) 1e308 1
  = neg_infinity /\
  is_nan (snd (UpdateDuration (fst (UpdateDuration test_pid (-1e308) 1))
                 1e308 1)) = true.
Proof. repeat split; vm_compute; reflexivity. Qed.

(** X11. Equal limits are no error ([min > max] is false): for a number
    [c], [SetOutputLimits(c, c)] succeeds, and every update afterwards
    returns a float equal to [c], or NaN. *)
Theorem equal_limits_pin_the_output :
  forall (pid : PID) (c value dt : float),
    is_nan c = false ->
    snd (SetOutputLimits pid c c) = None /\
    (is_nan (snd (UpdateDuration (fst (SetOutputLimits pid c c)) value dt))
     = true \/
     (snd (UpdateDuration (fst (SetOutputLimits pid c c)) value dt) =? c)
     = true).
Proof.
  intros pid c value dt N.
  assert (Hc : (c =? c) = true).
  { unfold is_nan in N. apply negb_false_iff in N. exact N. }
  unfold SetOutputLimits. rewrite ltb_irrefl. cbn [fst snd].
  split; [reflexivity|].
  rewrite UpdateDuration_output. cbn [outputMin outputMax with_outputLimits].
  set (raw := step_raw (with_outputLimits pid c c) value dt).
  unfold clamp.
  destruct (c <? raw) eqn:A; [right; exact Hc|].
  destruct (raw <? c) eqn:B; [right; exact Hc|].
  destruct (is_nan raw) eqn:R; [left; reflexivity|].
  right. apply not_ltb_eqb; assumption.
Qed.

Lemma equal_limits_pin_the_output_witness :
  snd (SetOutputLimits test_pid 7 7) = None /\
  (is_nan (snd (UpdateDuration (fst (SetOutputLimits test_pid 7 7)) 0 0.1))
   = true \/
   (snd (UpdateDuration (fst (SetOutputLimits test_pid 7 7)) 0 0.1) =? 7)
   = true).
Proof.
  apply (equal_limits_pin_the_output test_pid 7 0 0.1). reflexivity.
Defined.

Lemma run_with_prevError now pid e c :
  exists e',
    fst (run now (with_prevError pid e) c)
    = with_prevError (fst (run now pid c)) e' /\
    snd (run now (with_prevError pid e) c) = snd (run now pid c).
Proof.
  destruct c; unfold_methods; simpl;
    try (exists e; split; reflexivity).
  - exists e. destruct (max <? min); split; reflexivity.
  - exists e. destruct (max <? min); split; reflexivity.
  - exists (step_err pid value). split; reflexivity.
  - exists (step_err pid value). split; reflexivity.
Qed.

(** X12. [prevError] is written by every update and read by none: two
    controllers that differ in it only get the same reply to every call of
    every history, and are the same again after the first update. *)
Theorem prevError_is_never_read :
  forall (pid : PID) (e : float) (h : list (GoTime.Time * call))
         (value dt : float),
    replies (with_prevError pid e) h = replies pid h /\
    UpdateDuration (with_prevError pid e) value dt
    = UpdateDuration pid value dt.
Proof.
  intros pid e h value dt. split; [|reflexivity].
  revert pid e. induction h as [|[t c] h IH]; intros pid e; [reflexivity|].
  simpl.
  destruct (run_with_prevError t pid e c) as (e' & Hs & Hr).
  destruct (run t (with_prevError pid e) c) as [s1 r1].
  destruct (run t pid c) as [s2 r2].
  simpl in Hs, Hr. subst s1 r1. rewrite IH. reflexivity.
Qed.

(** X13. The range checks keep the limits in order: in every reachable
    state neither [outputMin > outputMax] nor [integralMin > integralMax],
    so each minimum is at most its maximum when the two are numbers. *)
Theorem limits_stay_ordered :
  forall pid : PID,
    reachable pid ->
    ((outputMax pid <? outputMin pid) = false /\
     (integralMax pid <? integralMin pid) = false) /\
    (is_nan (outputMin pid) = false -> is_nan (outputMax pid) = false ->
     (outputMin pid <=? outputMax pid) = true) /\
    (is_nan (integralMin pid) = false -> is_nan (integralMax pid) = false ->
     (integralMin pid <=? integralMax pid) = true).
Proof.
  intros pid R.
  destruct (reachable_invariants pid R) as [[Ho Hi] _].
  split; [split; assumption|].
  split; intros A B; apply not_ltb_leb; assumption.
Qed.

Lemma limits_stay_ordered_witness :
  ((outputMax test_pid <? outputMin test_pid) = false /\
   (integralMax test_pid <? integralMin test_pid) = false) /\
  (is_nan (outputMin test_pid) = false -> is_nan (outputMax test_pid) = false ->
   (outputMin test_pid <=? outputMax test_pid) = true) /\
  (is_nan (integralMin test_pid) = false ->
   is_nan (integralMax test_pid) = false ->
   (integralMin test_pid <=? integralMax test_pid) = true).
Proof.
  apply (limits_stay_ordered test_pid). apply reachable_run_all.
Defined.

(** X14. Until the first update [prevValue] is the 0 of [NewPID], so the
    first update with [dt > 0] differentiates against 0: its derivative
    term is [-value / dt], whatever the set point and the other calls made
    before. *)
Theorem first_update_derivative :
  forall (now : GoTime.Time) (p i d db : float)
         (h : list (GoTime.Time * call)) (value dt : float),
    Forall (fun nc => is_update (snd nc) = false) h ->
    (0 <? dt) = true ->
    prevValue (run_all (NewPID now p i d db) h) = 0 /\
    step_derivative (run_all (NewPID now p i d db) h) value dt
    = - value / dt.
Proof.
  intros now p i d db h value dt F Hdt.
  assert (P : forall pid, prevValue (run_all pid h) = prevValue pid).
  { induction F as [|[t c] h Hc F IH]; intros pid; [reflexivity|].
    rewrite run_all_cons, IH. apply run_prevValue. exact Hc. }
  specialize (P (NewPID now p i d db)). simpl in P.
  split; [exact P|].
  unfold step_derivative. rewrite Hdt, P, sub_zero_r. reflexivity.
Qed.

Lemma first_update_derivative_witness :
  prevValue (run_all (NewPID 0%Z 1 0 1 0) [(0%Z, CallSetSetPoint 50)]) = 0 /\
  step_derivative (run_all (NewPID 0%Z 1 0 1 0) [(0%Z, CallSetSetPoint 50)])
    50 0.5
  = - 50 / 0.5.
Proof.
  apply (first_update_derivative 0%Z 1 0 1 0 [(0%Z, CallSetSetPoint 50)]
           50 0.5).
  - repeat constructor.
  - reflexivity.
Defined.

(** The measurement sits on the set point from the start, and still the
    first update answers with the derivative term [-50 / 0.5 = -100]. *)
Example first_update_kick :
  snd (UpdateDuration
         (run_all (NewPID 0%Z 1 0 1 0) [(0%Z, CallSetSetPoint 50)]) 50 0.5)
  = -100.
Proof. vm_compute. reflexivity. Qed.

Lemma abs_not_ltb_nonpositive (x d : float) :
  (0 <? d) = false -> (abs x <? d) = false.
Proof.
  rewrite !FloatAxioms.ltb_spec, abs_spec, Prim2SF_zero. unfold SFltb.
  destruct (Prim2SF d) as [s|[]| |[] m e], (Prim2SF x) as [s'|s'| |s' m' e'];
    simpl; congruence.
Qed.

(** X15. The dead-band is in use only for [deadBand > 0].  When the
    [deadBand] given to [NewPID] is 0 (as in the tests), [-0], negative or
    NaN, no update of any history zeroes the error: it is
    [setPoint - value] and is stored as such. *)
Theorem dead_band_off_unless_positive :
  forall (now0 : GoTime.Time) (p i d db : float) (pid : PID)
         (now : GoTime.Time) (value dt : float),
    (0 <? db) = false ->
    reachable_from (NewPID now0 p i d db) pid ->
    step_err pid value = setPoint pid - value /\
    prevError (fst (UpdateDuration pid value dt)) = setPoint pid - value /\
    prevError (fst (Update now pid value)) = setPoint pid - value.
Proof.
  intros now0 p i d db pid now value dt Hdb R.
  apply reachable_from_deadBand in R. simpl in R.
  assert (H : (abs (setPoint pid - value) <? deadBand pid) = false).
  { rewrite R. apply abs_not_ltb_nonpositive, Hdb. }
  unfold Update, UpdateDuration, updateInternal, step_err. simpl.
  rewrite H. repeat split.
Qed.

Lemma dead_band_off_unless_positive_witness :
  step_err test_pid 100 = setPoint test_pid - 100 /\
  prevError (fst (UpdateDuration test_pid 100 0.1)) = setPoint test_pid - 100 /\
  prevError (fst (Update 9%Z test_pid 100)) = setPoint test_pid - 100.
Proof.
  apply (dead_band_off_unless_positive 0%Z 1 0 0 0 test_pid 9%Z 100 0.1).
  - reflexivity.
  - apply reachable_from_run_all.
Defined.
